(** * The dock daemon: a shallow embedding of daemon/daemon/{http,manager,interface}.py

    Python dictionaries keep insertion order, so they are modelled as
    association lists with string keys; exceptions are an explicit [exn]
    type and fallible code returns an [outcome]. *)

From Stdlib Require Import String List Bool Arith Lia Permutation.
Import ListNotations.
Open Scope string_scope.

(** ** Python run-time objects *)

(** The exceptions the modelled code raises or catches.  [InjectorLoadUnloadError]
    is a subclass of [ValueError] in the source; the two constructors keep the
    exact class apart. *)
Inductive exn : Type :=
| ValueError (msg : string)
| InjectorLoadUnloadError (msg : string)
| KeyError (key : string)
| TypeError (msg : string)
| FileNotFoundError (path : string)
| FileExistsError (path : string)
| InvalidStateError
| TimeoutError
| CancelledError
| PreLoadFailure (script : string) (error : string)
| PluginLoadFailed (script : string) (error : string) (tb : option string)
| IndexError (msg : string)
(** an exception raised by plugin code, with its formatted traceback lines *)
| PluginCodeError (trace : list string).

(** Result of a Python call: a return value or a raised exception. *)
Inductive outcome (A : Type) : Type :=
| Ret (a : A)
| Raise (e : exn).
Arguments Ret {A} a.
Arguments Raise {A} e.

(** An insertion-ordered [dict] with string keys. *)
Definition dict (V : Type) : Type := list (string * V).

Fixpoint dget {V} (k : string) (d : dict V) : option V :=
  match d with
  | [] => None
  | (k', v) :: r => if String.eqb k k' then Some v else dget k r
  end.

Definition dmem {V} (k : string) (d : dict V) : bool :=
  match dget k d with Some _ => true | None => false end.

(** [d[k] = v]: an existing key keeps its position, a new key goes last. *)
Fixpoint dset {V} (k : string) (v : V) (d : dict V) : dict V :=
  match d with
  | [] => [(k, v)]
  | (k', v') :: r => if String.eqb k k' then (k, v) :: r else (k', v') :: dset k v r
  end.

(** [del d[k]] / [d.pop(k)] once [k] is known to be present. *)
Fixpoint ddel {V} (k : string) (d : dict V) : dict V :=
  match d with
  | [] => []
  | (k', v') :: r => if String.eqb k k' then r else (k', v') :: ddel k r
  end.

(** Python truthiness of an optional string ([None] and [""] are false). *)
Definition truthy (s : option string) : bool :=
  match s with
  | Some x => negb (String.eqb x "")
  | None => false
  end.

(** [chr(10)] and [chr(34)], used to build the messages of the source. *)
Definition nl : string := String (Ascii.ascii_of_nat 10) EmptyString.
Definition dq : string := String (Ascii.ascii_of_nat 34) EmptyString.

(** ** A state and exception monad for the coroutines of the daemon

    A raised exception keeps the effects performed before the raise. *)
Definition ST (S A : Type) : Type := S -> outcome A * S.

Definition ret {S A} (a : A) : ST S A := fun s => (Ret a, s).
Definition raise {S A} (e : exn) : ST S A := fun s => (Raise e, s).
Definition bind {S A B} (m : ST S A) (k : A -> ST S B) : ST S B :=
  fun s => match m s with
           | (Ret a, s') => k a s'
           | (Raise e, s') => (Raise e, s')
           end.
Definition get {S} : ST S S := fun s => (Ret s, s).
Definition put {S} (s : S) : ST S unit := fun _ => (Ret tt, s).
(** [try: m except e: h(e)]; a handler that does not match re-raises. *)
Definition try_catch {S A} (m : ST S A) (h : exn -> ST S A) : ST S A :=
  fun s => match m s with
           | (Raise e, s') => h e s'
           | r => r
           end.

Notation "x <- m ;; k" := (bind m (fun x => k))
  (at level 61, m at next level, right associativity).
Notation "m ;; k" := (bind m (fun _ => k))
  (at level 61, right associativity).

(** ** RpcMultiplexer: [HTTPHandler.put_request] and [HTTPHandler.inbound_ack] *)
Module Rpc.

(** State of an [asyncio.Future]. *)
Inductive future := FutPending | FutDone (v : string) | FutCancelled.

Record HTTPState := mkHTTP {
  nonces : dict unit;                       (** [self.nonces]: the pending-call table *)
  futures : dict future;                    (** the future objects, by the nonce they were created for *)
  waiting_for_poll : list (option string * string);  (** [{"nonce", "data"}] entries *)
  warnings : list string                    (** [logger.warning] calls *)
}.

Definition empty_http : HTTPState := mkHTTP [] [] [] [].

(** First half of [put_request]: register the waiter and queue the payload. *)
Definition put_request_issue (nonce payload : string) (st : HTTPState) : HTTPState :=
  mkHTTP (dset nonce tt (nonces st)) (dset nonce FutPending (futures st))
         (waiting_for_poll st ++ [(Some nonce, payload)]) (warnings st).

(** [fut.set_result(v)]: only a pending future accepts a result. *)
Definition set_result (nonce v : string) (st : HTTPState) : outcome HTTPState :=
  match dget nonce (futures st) with
  | Some FutPending =>
      Ret (mkHTTP (nonces st) (dset nonce (FutDone v) (futures st)) (waiting_for_poll st) (warnings st))
  | _ => Raise InvalidStateError
  end.

(** The loop of [inbound_ack] over the [{"nonce", "response"}] items.  An
    exception from [set_result] ends the handler; the pops and results
    done before it stay, the offending nonce's pop included. *)
Fixpoint inbound_ack_loop (data : list (string * string)) (st : HTTPState) : outcome unit * HTTPState :=
  match data with
  | [] => (Ret tt, st)
  | (n, r) :: rest =>
      if dmem n (nonces st) then
        let popped := mkHTTP (ddel n (nonces st)) (futures st) (waiting_for_poll st) (warnings st) in
        match set_result n r popped with
        | Ret st' => inbound_ack_loop rest st'
        | Raise e => (Raise e, popped)
        end
      else
        inbound_ack_loop rest
          (mkHTTP (nonces st) (futures st) (waiting_for_poll st)
                  (warnings st ++ ["Received response for unknown nonce '" ++ n ++ "'"]))
  end.

(** Acknowledgement batches delivered while the call waits, each by its own
    [inbound_ack] request; a batch whose handling raises keeps the effects
    performed before the raise. *)
Fixpoint deliver_acks (batches : list (list (string * string))) (st : HTTPState) : HTTPState :=
  match batches with
  | [] => st
  | b :: rest => deliver_acks rest (snd (inbound_ack_loop b st))
  end.

(** [asyncio.wait_for(waiter, timeout)] at the moment it completes: the waiter
    is done, or the enclosing task was cancelled ([CancelledError] after
    cancelling the waiter), or the deadline passed ([TimeoutError] after
    cancelling the waiter). *)
Definition wait_for (nonce : string) (outer_cancelled : bool) (st : HTTPState)
  : outcome string * HTTPState :=
  let cancel_waiter :=
    mkHTTP (nonces st) (dset nonce FutCancelled (futures st)) (waiting_for_poll st) (warnings st) in
  match dget nonce (futures st) with
  | Some (FutDone v) => (Ret v, st)
  | _ => if outer_cancelled then (Raise CancelledError, cancel_waiter)
         else (Raise TimeoutError, cancel_waiter)
  end.

(** [put_request(payload, timeout=5.0)] with the fresh nonce [nonce], the
    acknowledgement batches that arrive before the deadline, and whether the
    issuing task gets cancelled meanwhile. *)
Definition put_request (nonce payload : string) (acks : list (list (string * string)))
  (outer_cancelled : bool) (st : HTTPState) : outcome (option string) * HTTPState :=
  let st1 := deliver_acks acks (put_request_issue nonce payload st) in
  match wait_for nonce outer_cancelled st1 with
  | (Ret v, st2) => (Ret (Some v), st2)
  | (Raise CancelledError, st2) =>
      let st3 := mkHTTP (nonces st2) (futures st2) (waiting_for_poll st2)
                        (warnings st2 ++ ["Timed out waiting for nonce " ++ nonce]) in
      if dmem nonce (nonces st3) then
        (Ret None, mkHTTP (ddel nonce (nonces st3)) (futures st3) (waiting_for_poll st3) (warnings st3))
      else (Raise (KeyError nonce), st3)
  | (Raise e, st2) => (Raise e, st2)
  end.

End Rpc.

(** ** Plugins, listeners and injectors: manager.py and interface.py *)
Module Manager.

(** What awaiting a listener does: return a value (its [str]) or raise. *)
Inductive cb_result := CbOk (s : string) | CbRaise (trace : list string).

(** A listener function.  Python compares functions by identity: [cb_id]. *)
Record Callback := mkCallback { cb_id : nat; cb_run : string -> cb_result }.

(** [Injector.on_error]: joins the formatted traceback of the exception. *)
Definition on_error : Callback := mkCallback 0 (fun trace => CbOk trace).

(** An [Injector] subclass: the dict [cls.__inject_listeners__] resolves
    to when the class is instantiated, and the [on_error] it defines or
    inherits.  In the source [Injector.listen] and [Injector.__new__] store
    that dict on [Injector] itself, so every subclass shares one dict; the
    record keeps one per class, which is the source's behaviour when a
    single injector class is instantiated, as in the example plugin. *)
Record InjectorClass := mkInjectorClass {
  inject_listeners : dict Callback;
  cls_on_error : Callback
}.

(** An [Injector] instance: its identity and the listener map it carries. *)
Record Injector := mkInjector { inj_id : nat; inj_listeners : dict Callback }.

(** [Injector.__new__]: an [error] entry is added when the class has none. *)
Definition Injector_new (cls : InjectorClass) (id : nat) : Injector :=
  mkInjector id
    (if dmem "error" (inject_listeners cls) then inject_listeners cls
     else dset "error" (cls_on_error cls) (inject_listeners cls)).

(** A listener-table entry: the tuple [(injector, callback)]. *)
Definition Entry : Type := (option Injector * Callback)%type.

(** The Python values [list.remove] compares: a function or an entry tuple. *)
Inductive pyval := PyFunc (c : Callback) | PyTuple (e : Entry).

Definition opt_inj_eqb (a b : option Injector) : bool :=
  match a, b with
  | Some i, Some j => Nat.eqb (inj_id i) (inj_id j)
  | None, None => true
  | _, _ => false
  end.

(** [==] on those values: a tuple never equals a function. *)
Definition py_eq (a b : pyval) : bool :=
  match a, b with
  | PyFunc c, PyFunc d => Nat.eqb (cb_id c) (cb_id d)
  | PyTuple (i, c), PyTuple (j, d) => opt_inj_eqb i j && Nat.eqb (cb_id c) (cb_id d)
  | _, _ => false
  end.

(** [l.remove(x)] on a list of entries; [None] is the [ValueError]. *)
Fixpoint list_remove (x : pyval) (l : list Entry) : option (list Entry) :=
  match l with
  | [] => None
  | e :: r => if py_eq (PyTuple e) x then Some r
              else option_map (cons e) (list_remove x r)
  end.

(** The manifest as [ujson.loads] returns it: an object, or another JSON value. *)
Inductive json := JObject (fields : dict string) | JOther.

Record PluginMeta := mkMeta {
  name : string; description : string; author : string; version : string;
  ui_config : option string; dock_version : option string;
  script_id : option string
}.

Definition set_script_id (m : PluginMeta) (sid : option string) : PluginMeta :=
  mkMeta (name m) (description m) (author m) (version m) (ui_config m) (dock_version m) sid.

(** [PluginMeta.__init__]: the four required keys are read in this order. *)
Definition PluginMeta_new (cfg : json) (sid : option string) : outcome PluginMeta :=
  match cfg with
  | JOther => Raise (TypeError "string indices must be integers")
  | JObject d =>
      match dget "name" d, dget "description" d, dget "author" d, dget "version" d with
      | None, _, _, _ => Raise (KeyError "name")
      | Some _, None, _, _ => Raise (KeyError "description")
      | Some _, Some _, None, _ => Raise (KeyError "author")
      | Some _, Some _, Some _, None => Raise (KeyError "version")
      | Some n, Some de, Some a, Some v =>
          Ret (mkMeta n de a v (dget "ui_config" d) (dget "dock_version" d) sid)
      end
  end.

(** What executing a plugin's [init.py] does: importing it may raise (with
    the formatted traceback lines); its [init(interface)] instantiates these
    injector classes and awaits [interface.load_injector] on each, in order,
    and may raise afterwards. *)
Record PluginCode := mkCode {
  import_error : option (list string);
  init_injectors : list InjectorClass;
  init_error : option (list string)
}.

(** A directory under [plugins/]: its files (name to text) and its code. *)
Record Dir := mkDir { dir_files : dict string; dir_code : PluginCode }.

(** Observable effects, in order. *)
Inductive Event :=
| Invoked (cb : nat) (event : string)              (** a listener was awaited *)
| InitCalled (module : string)                     (** [module.init(interface)] was awaited *)
| ErrorTask (plugin : string) (event : string) (trace : list string)
    (** [asyncio.create_task(self.call_error_listeners(event, e))] *)
| NotifyError (plugin_id : option string) (msg : string)  (** [_http.notify_error] *)
| DispatchTask (plugin_id : string) (event : string)
    (** [asyncio.create_task(self._execute_callback(plugin, payload))] *)
| Warning (msg : string).                           (** [logger.warning] *)

(** Process-wide state: the [plugins/] directory, [sys.modules], a supply of
    fresh object identities, and the effects so far. *)
Record Glob := mkGlob {
  fs : dict Dir;
  sys_modules : list string;
  next_obj : nat;
  events : list Event
}.

(** A [Plugin] object; [injectors] is the list its [Interface] keeps. *)
Record Plugin := mkPlugin {
  directory : string;
  config : option json;
  module : option string;
  enabled : bool;
  meta : option PluginMeta;
  listeners : dict (list Entry);
  is_loaded : bool;
  injectors : list Injector
}.

(** [Plugin.__init__]. *)
Definition Plugin_new (dir : string) : Plugin :=
  mkPlugin dir None None false None [] false [].

Definition set_directory (p : Plugin) d := mkPlugin d (config p) (module p) (enabled p) (meta p) (listeners p) (is_loaded p) (injectors p).
Definition set_config (p : Plugin) c := mkPlugin (directory p) c (module p) (enabled p) (meta p) (listeners p) (is_loaded p) (injectors p).
Definition set_module (p : Plugin) m := mkPlugin (directory p) (config p) m (enabled p) (meta p) (listeners p) (is_loaded p) (injectors p).
Definition set_meta (p : Plugin) m := mkPlugin (directory p) (config p) (module p) (enabled p) m (listeners p) (is_loaded p) (injectors p).
Definition set_listeners (p : Plugin) l := mkPlugin (directory p) (config p) (module p) (enabled p) (meta p) l (is_loaded p) (injectors p).
Definition set_is_loaded (p : Plugin) b := mkPlugin (directory p) (config p) (module p) (enabled p) (meta p) (listeners p) b (injectors p).
Definition set_injectors (p : Plugin) i := mkPlugin (directory p) (config p) (module p) (enabled p) (meta p) (listeners p) (is_loaded p) i.

(** The state a method of a [Plugin] runs in. *)
Record PS := mkPS { glob : Glob; plug : Plugin }.

Definition get_plugin : ST PS Plugin := fun s => (Ret (plug s), s).
Definition get_glob : ST PS Glob := fun s => (Ret (glob s), s).
Definition modify_plugin (f : Plugin -> Plugin) : ST PS unit :=
  fun s => (Ret tt, mkPS (glob s) (f (plug s))).
Definition modify_glob (f : Glob -> Glob) : ST PS unit :=
  fun s => (Ret tt, mkPS (f (glob s)) (plug s)).
Definition emit (e : Event) : ST PS unit :=
  modify_glob (fun g => mkGlob (fs g) (sys_modules g) (next_obj g) (events g ++ [e])).
Definition fresh_obj : ST PS nat :=
  fun s => let g := glob s in
           (Ret (next_obj g), mkPS (mkGlob (fs g) (sys_modules g) (S (next_obj g)) (events g)) (plug s)).

(** [Plugin.add_listeners(injector, listeners)]. *)
Fixpoint add_listeners_loop (inj : option Injector) (ls : dict Callback)
  (tbl : dict (list Entry)) : dict (list Entry) :=
  match ls with
  | [] => tbl
  | (n, cb) :: r =>
      let cur := match dget n tbl with Some l => l | None => [] end in
      add_listeners_loop inj r (dset n (cur ++ [(inj, cb)])%list tbl)
  end.

Definition add_listeners (inj : Injector) (ls : dict Callback) : ST PS unit :=
  modify_plugin (fun p => set_listeners p (add_listeners_loop (Some inj) ls (listeners p))).

(** [Plugin.remove_listeners(listeners)]: [self._listeners[name].remove(cb)],
    a [ValueError] there is swallowed. *)
Fixpoint remove_listeners_loop (ls : dict Callback) (tbl : dict (list Entry)) : dict (list Entry) :=
  match ls with
  | [] => tbl
  | (n, cb) :: r =>
      match dget n tbl with
      | None => remove_listeners_loop r tbl
      | Some l =>
          match list_remove (PyFunc cb) l with
          | Some l' => remove_listeners_loop r (dset n l' tbl)
          | None => remove_listeners_loop r tbl
          end
      end
  end.

Definition remove_listeners (ls : dict Callback) : ST PS unit :=
  modify_plugin (fun p => set_listeners p (remove_listeners_loop ls (listeners p))).

(** [Injector._setup] and [Injector._teardown]. *)
Definition inj_setup (inj : Injector) : ST PS unit := add_listeners inj (inj_listeners inj).
Definition inj_teardown (inj : Injector) : ST PS unit := remove_listeners (inj_listeners inj).

(** [l.remove(injector)] on the interface's list; [None] is the [ValueError]. *)
Fixpoint remove_injector (inj : Injector) (l : list Injector) : option (list Injector) :=
  match l with
  | [] => None
  | i :: r => if Nat.eqb (inj_id i) (inj_id inj) then Some r
              else option_map (cons i) (remove_injector inj r)
  end.

(** [Interface.load_injector]. *)
Definition load_injector (inj : Injector) : ST PS unit :=
  p <- get_plugin;;
  if existsb (fun i => Nat.eqb (inj_id i) (inj_id inj)) (injectors p)
  then raise (InjectorLoadUnloadError "Injector is already loaded")
  else inj_setup inj ;;
       modify_plugin (fun p => set_injectors p (injectors p ++ [inj])%list).

(** [Interface.unload_injector]: the [try]/[except KeyError] around
    [self.__injectors.remove(injector)]. *)
Definition unload_injector (inj : Injector) : ST PS unit :=
  try_catch
    (p <- get_plugin;;
     match remove_injector inj (injectors p) with
     | Some l => modify_plugin (fun p => set_injectors p l)
     | None => raise (ValueError "list.remove(x): x not in list")
     end)
    (fun e => match e with
              | KeyError _ => raise (InjectorLoadUnloadError "Injector is not loaded")
              | _ => raise e
              end) ;;
  inj_teardown inj.

(** [Plugin.call_listeners(event, data)]: each entry is awaited in order;
    one that raises schedules the plugin's error chain and the loop goes on.
    A missing [data] is passed as [""]. *)
Fixpoint run_entries (event data : string) (l : list Entry) : ST PS unit :=
  match l with
  | [] => ret tt
  | (_, c) :: r =>
      emit (Invoked (cb_id c) event) ;;
      p <- get_plugin;;
      (match cb_run c data with
       | CbOk _ => ret tt
       | CbRaise tr => emit (ErrorTask (directory p) event tr)
       end) ;;
      run_entries event data r
  end.

Definition call_listeners (event data : string) : ST PS unit :=
  p <- get_plugin;;
  match dget event (listeners p) with
  | None => ret tt
  | Some l => run_entries event data l
  end.

(** [Plugin.eject_listeners] and [Plugin.eject]. *)
Definition eject_listeners : ST PS unit :=
  call_listeners "unload" "" ;;
  modify_plugin (fun p => set_listeners p []).

Definition eject : ST PS unit :=
  modify_plugin (fun p => set_is_loaded p false) ;;
  eject_listeners.

Definition multiple_handlers_note : string :=
  nl ++ nl ++ "Multiple error handlers registered. Only one will be used, and this message will not go away until there is only one".

(** [traceback.format_exception] of [e] raised [from] the exception whose
    lines are [cause]. *)
Definition chained_trace (cause tr : list string) : list string :=
  cause ++ [nl ++ "The above exception was the direct cause of the following exception:" ++ nl ++ nl] ++ tr.

(** [Plugin.call_error_listeners(event, error)]; [trace] is the formatted
    traceback of [error], the text the listener is given. *)
Definition call_error_listeners (event : string) (trace : list string) : ST PS unit :=
  p <- get_plugin;;
  match dget "error" (listeners p) with
  | None => ret tt
  | Some [] => raise (IndexError "list index out of range")
  | Some (((_, caller) :: _) as l) =>
      emit (Invoked (cb_id caller) "error") ;;
      let response :=
        match cb_run caller (String.concat "" trace) with
        | CbOk r => r
        | CbRaise tr2 => "An error occurred in the error handler" ++ nl ++ String.concat "" (chained_trace trace tr2)
        end in
      let response :=
        if Nat.ltb 1 (length l) then response ++ multiple_handlers_note else response in
      emit (NotifyError (match meta p with Some m => script_id m | None => None end) response)
  end.

(** [Plugin.has_parse_hook]. *)
Definition has_parse_hook (p : Plugin) : bool :=
  match dget "parse" (listeners p) with
  | Some (_ :: _) => true
  | _ => false
  end.

(** [Plugin.call_parse_hook(payload)] on the payload's current [string]. *)
Definition call_parse_hook (s : string) : ST PS string :=
  p <- get_plugin;;
  match dget "parse" (listeners p) with
  | Some ((_, c) :: _) =>
      match cb_run c s with
      | CbOk r => ret r
      | CbRaise tr => emit (ErrorTask (directory p) "parse" tr) ;; ret s
      end
  | _ => ret s
  end.

(** [init(interface)] of the plugin module. *)
Fixpoint init_loop (cls : list InjectorClass) : ST PS unit :=
  match cls with
  | [] => ret tt
  | c :: r => id <- fresh_obj;; load_injector (Injector_new c id) ;; init_loop r
  end.

Definition module_init (modname : string) (code : PluginCode) : ST PS unit :=
  emit (InitCalled modname) ;;
  init_loop (init_injectors code) ;;
  match init_error code with
  | None => ret tt
  | Some tr => raise (PluginCodeError tr)
  end.

(** The code of the plugin's directory, when it exists. *)
Definition plugin_code : ST PS (option PluginCode) :=
  g <- get_glob;; p <- get_plugin;;
  ret (option_map dir_code (dget (directory p) (fs g))).

(** Executing the module body of [init.py]. *)
Definition exec_module (modname : string) : ST PS unit :=
  c <- plugin_code;;
  match c with
  | None => raise (PluginCodeError ["ModuleNotFoundError: No module named '" ++ modname ++ "'" ++ nl])
  | Some code =>
      match import_error code with
      | Some tr => raise (PluginCodeError tr)
      | None => ret tt
      end
  end.

(** [importlib.import_module(modname)]: a module already in [sys.modules] is
    returned without running it again; a failed import leaves no entry. *)
Definition import_module (modname : string) : ST PS unit :=
  g <- get_glob;;
  if existsb (String.eqb modname) (sys_modules g) then ret tt
  else exec_module modname ;;
       modify_glob (fun g => mkGlob (fs g) (sys_modules g ++ [modname])%list (next_obj g) (events g)).

(** [importlib.reload(module)] runs the module body again. *)
Definition importlib_reload (modname : string) : ST PS unit := exec_module modname.

(** [traceback.format_exception(type(e), e, e.__traceback__)]. *)
Definition format_exception (e : exn) : list string :=
  match e with
  | PluginCodeError tr => tr
  | ValueError m => ["ValueError: " ++ m ++ nl]
  | InjectorLoadUnloadError m => ["daemon.interface.InjectorLoadUnloadError: " ++ m ++ nl]
  | KeyError k => ["KeyError: '" ++ k ++ "'" ++ nl]
  | TypeError m => ["TypeError: " ++ m ++ nl]
  | IndexError m => ["IndexError: " ++ m ++ nl]
  | _ => ["Exception" ++ nl]
  end.

(** [isinstance(e, Exception)]: [CancelledError] derives from [BaseException] only. *)
Definition is_Exception (e : exn) : bool :=
  match e with CancelledError => false | _ => true end.

(** The frame line [try_load] cuts the import traceback at. *)
Definition frames_split : string :=
  "  File " ++ dq ++ "<frozen importlib._bootstrap>" ++ dq ++
  ", line 241, in _call_with_frames_removed" ++ nl.

(** [list.index(x)]. *)
Fixpoint list_index (x : string) (l : list string) : option nat :=
  match l with
  | [] => None
  | y :: r => if String.eqb x y then Some 0 else option_map S (list_index x r)
  end.

Definition meta_name (p : Plugin) : string :=
  match meta p with Some m => name m | None => "" end.

(** [Plugin.try_load]. *)
Definition try_load : ST PS unit :=
  p <- get_plugin;;
  let modname := "plugins." ++ directory p ++ ".init" in
  try_catch
    (match module p with
     | Some m => importlib_reload m ;; modify_plugin (fun p => set_module p (Some m))
     | None => import_module modname ;; modify_plugin (fun p => set_module p (Some modname))
     end)
    (fun e =>
       let trace := format_exception e in
       match list_index frames_split trace with
       | None => raise (ValueError (frames_split ++ " is not in list"))
       | Some idx =>
           let trace := ("Traceback (most recent call last):" ++ nl) :: skipn (S idx) trace in
           raise (PluginLoadFailed (meta_name p) "Failed to load module" (Some (String.concat "" trace)))
       end) ;;
  p <- get_plugin;;
  c <- plugin_code;;
  (* the module was just executed from this directory, so [c] is [Some] *)
  let code := match c with Some code => code | None => mkCode None [] None end in
  try_catch
    (module_init (match module p with Some m => m | None => "" end) code)
    (fun e =>
       if is_Exception e then
         raise (PluginLoadFailed (meta_name p) "Encountered an error while calling init"
                  (Some (String.concat "" (format_exception e))))
       else raise e).

(** Writing a file of the plugin's directory ([open(mode="w")]). *)
Definition write_file (fname contents : string) : ST PS unit :=
  p <- get_plugin;;
  modify_glob (fun g =>
    let fs' := match dget (directory p) (fs g) with
               | Some d => dset (directory p) (mkDir (dset fname contents (dir_files d)) (dir_code d)) (fs g)
               | None => fs g
               end in
    mkGlob fs' (sys_modules g) (next_obj g) (events g)).

(** Reading a file of the plugin's directory ([open().read()]). *)
Definition read_file (fname : string) : ST PS string :=
  p <- get_plugin;; g <- get_glob;;
  match dget (directory p) (fs g) with
  | Some d =>
      match dget fname (dir_files d) with
      | Some c => ret c
      | None => raise (FileNotFoundError (directory p ++ "/" ++ fname))
      end
  | None => raise (FileNotFoundError (directory p ++ "/" ++ fname))
  end.

(** [Plugin.load_meta(script_id)]; [loads] is [ujson.loads] ([None]: it
    raises) and [fresh] the value of [str(uuid.uuid4()).replace("-", "")]. *)
Definition load_meta (loads : string -> option json) (fresh : string) (sid : option string)
  : ST PS unit :=
  p <- get_plugin;; g <- get_glob;;
  let dname := directory p in
  match dget dname (fs g) with
  | None => raise (FileNotFoundError dname)
  | Some d =>
    let files := dir_files d in
    if negb (dmem "plugin.json" files) then
      raise (PreLoadFailure ("@" ++ dname) "directory does not contain a plugin.json file.")
    else
    match match dget "plugin.json" files with Some t => loads t | None => None end with
    | None => raise (PreLoadFailure ("@" ++ dname) "unable to load plugin.json")
    | Some cfg =>
      modify_plugin (fun p => set_config p (Some cfg)) ;;
      match PluginMeta_new cfg sid with
      | Raise (KeyError k) =>
          raise (PreLoadFailure ("@" ++ dname) ("plugin.json is missing key: " ++ k))
      | Raise e => raise e
      | Ret m =>
        modify_plugin (fun p => set_meta p (Some m)) ;;
        (if negb (dmem ".__dock_store" files) && negb (truthy (script_id m)) then
           write_file ".__dock_store" fresh ;;
           modify_plugin (fun p => set_meta p (Some (set_script_id m (Some fresh))))
         else if negb (dmem ".__dock_store" files) then
           c <- read_file ".__dock_store";;
           modify_plugin (fun p => set_meta p (Some (set_script_id m (Some c))))
         else ret tt) ;;
        if negb (dmem "init.py" files) then raise (PreLoadFailure (name m) "no init.py file found")
        else ret tt
      end
    end
  end.

(** [self.directory.rename(self.directory.parent / sid)]; on Windows, the
    platform of the bot, an existing target raises.  For the empty id the
    target [parent / ""] is the [plugins/] directory itself, which exists. *)
Definition rename_dir (sid : string) : ST PS unit :=
  p <- get_plugin;; g <- get_glob;;
  match dget (directory p) (fs g) with
  | None => raise (FileNotFoundError (directory p))
  | Some d =>
      if String.eqb sid "" || dmem sid (fs g) then raise (FileExistsError sid)
      else modify_glob (fun g => mkGlob (dset sid d (ddel (directory p) (fs g))) (sys_modules g) (next_obj g) (events g)) ;;
           modify_plugin (fun p => set_directory p sid)
  end.

(** The first value of [Plugin.load]'s result: [True], [False] or [...]. *)
Inductive BoolOrEllipsis := PyTrue | PyFalse | Ellipsis.

(** [PluginLoadFailed.message]. *)
Definition failure_message (script err : string) : string :=
  "Failed to load script '" ++ script ++ "': " ++ err.

(** [f"{e.message}\n{e.original_traceback}"] when the traceback is truthy. *)
Definition message_with_tb (script err : string) (tb : option string) : string :=
  if truthy tb then failure_message script err ++ nl ++ match tb with Some t => t | None => "" end
  else failure_message script err.

(** [Plugin.load(script_id)]. *)
Definition load (loads : string -> option json) (fresh : string) (sid : option string)
  : ST PS (BoolOrEllipsis * string) :=
  r <- try_catch
    (load_meta loads fresh sid ;;
     p <- get_plugin;;
     match option_map script_id (meta p) with
     | Some (Some id) =>
         (if String.eqb (directory p) id then ret tt else rename_dir id) ;;
         try_load ;;
         ret (inl id)
     | _ => raise (TypeError "unsupported operand type(s) for /: 'WindowsPath' and 'NoneType'")
     end)
    (fun e =>
       match e with
       | PreLoadFailure s err =>
           ret (inr (Ellipsis, "Could not identify the plugin for loading:" ++ nl ++ failure_message s err))
       | PluginLoadFailed s err tb =>
           p <- get_plugin;;
           (match listeners p with [] => ret tt | _ => eject_listeners end) ;;
           ret (inr (PyFalse, message_with_tb s err tb))
       | _ => raise e
       end);;
  match r with
  | inl id => modify_plugin (fun p => set_is_loaded p true) ;; ret (PyTrue, id)
  | inr res => ret res
  end.

(** ** [PluginManager] *)

(** [self.plugins] (insertion-ordered) and the process-wide state. *)
Record MState := mkM { plugins : dict Plugin; mglob : Glob }.

(** Running a method of the plugin registered under [k]: the object is the
    one in the registry, so its mutations are seen there. *)
Definition run_plugin {A} (k : string) (m : ST PS A) : ST MState A :=
  fun s => match dget k (plugins s) with
           | None => (Raise (KeyError k), s)
           | Some p =>
               let '(r, ps) := m (mkPS (mglob s) p) in
               (r, mkM (dset k (plug ps) (plugins s)) (glob ps))
           end.

Definition memit (e : Event) : ST MState unit :=
  fun s => let g := mglob s in
           (Ret tt, mkM (plugins s) (mkGlob (fs g) (sys_modules g) (next_obj g) (events g ++ [e]))).

(** [PluginManager.load_plugin(directory, plugin_id)]. *)
Definition load_plugin (loads : string -> option json) (fresh : string)
  (dir : string) (plugin_id : option string) : ST MState (bool * option string * string) :=
  st <- get;;
  if truthy plugin_id && (match plugin_id with Some i => dmem i (plugins st) | None => false end)
  then ret (false, None, "Plugin is already loaded")
  else if negb (dmem dir (fs (mglob st))) then ret (false, None, "The given directory does not exist")
  else
    fun s =>
      let '(r, ps) := load loads fresh plugin_id (mkPS (mglob s) (Plugin_new dir)) in
      let p := plug ps in
      let sid := match meta p with Some m => script_id m | None => None end in
      match r with
      | Raise e => (Raise e, mkM (plugins s) (glob ps))
      | Ret (ok, resp) =>
          let reg :=
            match ok, sid with
            | Ellipsis, _ => plugins s
            | _, Some k => dset k p (plugins s)
            | _, None => plugins s  (* not reached: the rename needs an id *)
            end in
          let ok' := match ok with PyTrue => true | _ => false end in
          (Ret (ok', sid, resp), mkM reg (glob ps))
      end.

(** [PluginManager.reload_plugin(script_id)]; [None] is the implicit
    [return None] at the end of the coroutine. *)
Definition reload_plugin (sid : string) : ST MState (option (bool * string)) :=
  st <- get;;
  if negb (dmem sid (plugins st)) then ret (Some (false, "Script is not loaded in the dock"))
  else
    run_plugin sid
      (p <- get_plugin;;
       (if is_loaded p then eject else ret tt) ;;
       try_catch (try_load ;; ret None)
         (fun e => match e with
                   | PluginLoadFailed s err tb => ret (Some (false, message_with_tb s err tb))
                   | PreLoadFailure s err => ret (Some (false, message_with_tb s err None))
                   | _ => raise e
                   end)).

(** [PluginManager.unload_plugin(script_id)]. *)
Definition unload_plugin (sid : string) : ST MState (option (bool * string)) :=
  st <- get;;
  match dget sid (plugins st) with
  | None => ret (Some (false, "Script has not been loaded into the dock"))
  | Some p => if negb (is_loaded p) then ret (Some (false, "Script is not actively loaded")) else ret None
  end.

(** [PluginManager.evict_plugins] and [graceful_shutdown] ([... # TODO]). *)
Definition evict_plugins : ST MState unit := ret tt.
Definition graceful_shutdown : ST MState unit := ret tt.

(** The fields of an inbound bot payload the manager reads. *)
Record InboundPayload := mkInbound {
  pl_type : nat;
  pl_script_id : option string;   (** [payload.get('script_id')] *)
  pl_is_raw : bool                (** [payload['data']['is_raw']] *)
}.

(** The loop of [handle_inbound] over [self.plugins.values()]. *)
Fixpoint broadcast (ps : list (string * Plugin)) (event : string) : ST MState unit :=
  match ps with
  | [] => ret tt
  | (k, p) :: r => (if enabled p then memit (DispatchTask k event) else ret tt) ;; broadcast r event
  end.

(** [PluginManager.handle_inbound(payload)]. *)
Definition handle_inbound (pl : InboundPayload) : ST MState unit :=
  st <- get;;
  if Nat.eqb (pl_type pl) 0 then
    broadcast (plugins st) (if pl_is_raw pl then "raw_message" else "message")
  else
    let known := match pl_script_id pl with Some k => dmem k (plugins st) | None => false end in
    if known then ret tt
    else memit (Warning ("Inbound payload referencing unknown plugin " ++
                         match pl_script_id pl with Some k => k | None => "None" end ++ ". Discarding")).

(** A scheduled [_execute_callback(plugin, payload)] task when it runs. *)
Definition execute_callback (k event data : string) : ST MState unit :=
  run_plugin k (call_listeners event data).

(** Modelled from the spec: [enums.py] ([PayloadTypeEnum], [try_enum]) is not
    among the sources; the values follow the [PayloadType] comment of
    [type/payloads.py]: execute 0, parse 1, state 2, reload 3, button 4. *)
Definition PayloadTypeEnum_parse : nat := 1.
Definition PayloadTypeEnum_button : nat := 4.

(** One pass of [handle_parse] over the registered plugins, in order. *)
Fixpoint parse_pass (keys : list string) (s : string) : ST MState string :=
  match keys with
  | [] => ret s
  | k :: r =>
      st <- get;;
      match dget k (plugins st) with
      | Some p =>
          if has_parse_hook p then s' <- run_plugin k (call_parse_hook s);; parse_pass r s'
          else parse_pass r s
      | None => parse_pass r s
      end
  end.

(** [PluginManager.handle_parse(payload)] on a payload of type [t] whose
    [data["string"]] is [s]. *)
Definition handle_parse (t : nat) (s : string) : ST MState string :=
  if negb (Nat.eqb t PayloadTypeEnum_parse) then raise (TypeError "passed to handle_parse")
  else
    st <- get;; s1 <- parse_pass (map fst (plugins st)) s;;
    st <- get;; parse_pass (map fst (plugins st)) s1.

(** [PluginManager.handle_button(payload)]. *)
Definition handle_button (t : nat) (plugin_id element : string) : ST MState unit :=
  if negb (Nat.eqb t PayloadTypeEnum_button) then raise (TypeError "passed to handle_button")
  else
    st <- get;;
    if negb (dmem plugin_id (plugins st)) then
      memit (Warning ("Inbound button payload referencing unknown plugin " ++ plugin_id ++ ". Discarding")) ;;
      raise (ValueError "Unknown plugin id")
    else run_plugin plugin_id (call_listeners "button" element).

End Manager.

(** ** TransportLayer and AuthSession: the route handlers of http.py *)
Module Http.
Import Manager.

(** Modelled from the spec: [enums.py] ([AuthState]) is not among the sources;
    the states are the ones the spec's AuthSession state machine names. *)
Inductive AuthState :=
| WaitingForClient | PendingPingPong | AuthOK | PingPongFailed | ClientServerMismatch | Closing.

(** The handler's [_auth], [challenge], [auth_state], and the module-level
    [kill_code] ([sys.argv[2]] when given). *)
Record HState := mkH {
  auth : option string;
  challenge : option string;
  auth_state : option AuthState;
  kill_code : option string
}.

(** The parts of a request the handlers read; [body] is [await request.json()]. *)
Record Request := mkReq { headers : dict string; query : dict string; body : dict string }.

Record Response := mkResp { status : nat; rbody : string }.

Definition json_error (st : nat) (msg : string) : Response :=
  mkResp st ("{" ++ dq ++ "error" ++ dq ++ ": " ++ dq ++ msg ++ dq ++ "}").

(** [self.route_table] in [HTTPHandler.__init__]. *)
Inductive route :=
| RVersion | RAuth | RPingpong | RKill | RAuthcheck | ROutbound | RInbound
| RInboundParse | RInboundButton | RInboundAck | RLoadPlugin | RReloadPlugin.

Definition route_table : list (string * string * route) :=
  [("GET", "/version", RVersion); ("POST", "/auth", RAuth); ("POST", "/pingpong", RPingpong);
   ("GET", "/kill", RKill); ("GET", "/authcheck", RAuthcheck); ("GET", "/outbound", ROutbound);
   ("POST", "/inbound", RInbound); ("POST", "/inbound/parse", RInboundParse);
   ("POST", "/inbound/button", RInboundButton); ("GET", "/inbound-ack", RInboundAck);
   ("POST", "/inbound/load-plugin", RLoadPlugin); ("POST", "/inbound/reload-plugin", RReloadPlugin)].

(** [ "Authorization" not in request.headers or
      request.headers["Authorization"] != self._auth ]. *)
Definition bad_auth (st : HState) (req : Request) : bool :=
  negb (dmem "Authorization" (headers req)) ||
  match dget "Authorization" (headers req), auth st with
  | Some h, Some a => negb (String.eqb h a)
  | _, _ => true
  end.

(** The checks each handler performs before doing anything else: [Some r]
    when the handler returns [r] there, [None] when it goes on. *)
Definition route_guard (r : route) (st : HState) (req : Request) : option Response :=
  match r with
  | RVersion => None
  | RAuth => if truthy (auth st) then Some (mkResp 401 "Auth already set") else None
  | RKill =>
      if negb (truthy (kill_code st)) then Some (json_error 401 "killcode not provided on startup")
      else if negb (dmem "code" (query req)) ||
              match dget "code" (query req), kill_code st with
              | Some c, Some k => negb (String.eqb c k)
              | _, _ => true
              end
      then Some (json_error 401 "missing code")
      else None
  | RAuthcheck => if bad_auth st req then Some (json_error 401 "bad authorization") else None
  | RPingpong | ROutbound | RInbound | RInboundParse | RInboundButton | RInboundAck
  | RLoadPlugin | RReloadPlugin =>
      if bad_auth st req then Some (json_error 401 "missing authorization") else None
  end.

(** [route_auth]; [token] is [secrets.token_urlsafe(16)]. *)
Definition route_auth (token : string) (st : HState) (req : Request) : outcome Response * HState :=
  if truthy (auth st) then (Ret (mkResp 401 "Auth already set"), st)
  else match dget "code" (body req) with
       | None => (Raise (KeyError "code"), st)
       | Some code =>
           (Ret (mkResp 200 token), mkH (Some code) (Some token) (Some PendingPingPong) (kill_code st))
       end.

(** [route_pingpong]. *)
Definition route_pingpong (st : HState) (req : Request) : outcome Response * HState :=
  if bad_auth st req then (Ret (json_error 401 "missing authorization"), st)
  else match challenge st with
       | None => (Ret (mkResp 404 ""), st)
       | Some ch =>
           match dget "challenge" (body req) with
           | None => (Raise (KeyError "challenge"), st)
           | Some c =>
               if String.eqb c ch
               then (Ret (mkResp 204 ""), mkH (auth st) (challenge st) (Some AuthOK) (kill_code st))
               else (Ret (mkResp 400 "Failed pingpong"),
                     mkH (auth st) (challenge st) (Some ClientServerMismatch) (kill_code st))
           end
       end.

(** The adapter's handshake: post [code = C] to [/auth], then post the
    challenge back to [/pingpong] authenticated with [C]; [Some] of the
    resulting state when [/pingpong] answers 204. *)
Definition handshake (C token : string) (st : HState) : option HState :=
  match route_auth token st (mkReq [] [] [("code", C)]) with
  | (Ret _, st1) =>
      match challenge st1 with
      | Some ch =>
          match route_pingpong st1 (mkReq [("Authorization", C)] [] [("challenge", ch)]) with
          | (Ret r, st2) => if Nat.eqb (status r) 204 then Some st2 else None
          | _ => None
          end
      | None => None
      end
  | _ => None
  end.

(** [inbound_button] with the payload [{type, plugin_id, data: {element}}]. *)
Definition inbound_button (st : HState) (req : Request) (t : nat) (plugin_id element : string)
  : ST MState Response :=
  if bad_auth st req then ret (json_error 401 "missing authorization")
  else handle_button t plugin_id element ;; ret (mkResp 204 "").

End Http.

(** ** The other route handlers of http.py, and the API methods of [Interface] *)
Module Routes.
Import Manager Http.

(** A handler's reply: a [web.Response], or [web.json_response] of an object
    whose values are strings or [null] ([None]). *)
Inductive Reply :=
| RPlain (r : Response)
| RJson (status : nat) (fields : list (string * option string)).

(** [outbound]: the queued entries are answered and the queue cleared
    ([self.last_poll], the wall-clock time, is not kept). *)
Definition outbound (hst : HState) (req : Request) (st : Rpc.HTTPState)
  : (Response + list (option string * string)) * Rpc.HTTPState :=
  if bad_auth hst req then (inl (json_error 401 "missing authorization"), st)
  else (inr (Rpc.waiting_for_poll st),
        Rpc.mkHTTP (Rpc.nonces st) (Rpc.futures st) [] (Rpc.warnings st)).

(** [inbound_parse] on a payload of type [t] whose [data["string"]] is [s]
    (a payload carrying every key [ParseData] reads): an [Exception] from
    [handle_parse] falls back to the input string. *)
Definition inbound_parse (hst : HState) (req : Request) (t : nat) (s : string) : ST MState Reply :=
  if bad_auth hst req then ret (RPlain (json_error 401 "missing authorization"))
  else resp <- try_catch (handle_parse t s) (fun e => if is_Exception e then ret s else raise e);;
       ret (RJson 200 [("text", Some resp)]).

(** [inbound_load_plugin] with [data['directory']] and [data['plugin_id']]. *)
Definition inbound_load_plugin (hst : HState) (req : Request) (loads : string -> option json)
  (fresh dir : string) (pid : option string) : ST MState Reply :=
  if bad_auth hst req then ret (RPlain (json_error 401 "missing authorization"))
  else r <- load_plugin loads fresh dir pid;;
       let '(ok, sid, resp) := r in
       if ok then ret (RJson 200 [("id", Some resp)])
       else ret (RJson 203 [("id", sid); ("error", Some resp)]).

(** [inbound_reload_plugin]: [ok, reason = await self.manager.reload_plugin(...)]
    unpacks the coroutine's result. *)
Definition inbound_reload_plugin (hst : HState) (req : Request) (sid : string) : ST MState Reply :=
  if bad_auth hst req then ret (RPlain (json_error 401 "missing authorization"))
  else r <- reload_plugin sid;;
       match r with
       | None => raise (TypeError "cannot unpack non-iterable NoneType object")
       | Some (true, _) => ret (RPlain (mkResp 204 ""))
       | Some (false, reason) => ret (RJson 203 [("error", Some reason)])
       end.

(** The attributes of an [HTTPHandler] instance: the ones [__init__] and
    [setup] assign (private names mangled) and the methods of the class. *)
Definition HTTPHandler_attrs : list string :=
  ["manager"; "_auth"; "_auth_state"; "_auth_event"; "server"; "_HTTPHandler__runner";
   "_HTTPHandler__site"; "challenge"; "last_poll"; "nonces"; "waiting_for_poll"; "version";
   "version_tuple"; "route_table"; "loop";
   "auth_state"; "setup"; "start_service"; "end_service"; "wait_for_pingpong";
   "route_version"; "route_auth"; "route_pingpong"; "route_kill_override"; "route_ensure_auth";
   "outbound"; "inbound"; "inbound_parse"; "inbound_button"; "inbound_ack";
   "inbound_load_plugin"; "inbound_reload_plugin"; "put_request"; "notify_error"; "send_log";
   "get_currency_name"; "add_points"; "remove_points"; "add_points_all"; "remove_points_all";
   "get_points"; "get_rank"; "get_hours"; "get_currency_users"; "send_stream_message";
   "send_stream_whisper"; "send_discord_message"; "send_discord_dm"; "broadcast_ws_event";
   "has_permission"; "get_viewer_list"; "get_active_viewer_list"; "get_random_active_viewer";
   "get_display_name"; "is_live"; "get_streaming_service"; "get_channel_name"; "play_sound";
   "get_queue_entries"; "get_song_queue"; "get_playlist_queue"; "get_now_playing"].

(** The API methods of [Interface] and the [self.__http] attribute each one awaits. *)
Definition Interface_api : list (string * string) :=
  [("get_username", "api_get_username"); ("add_points", "api_add_points");
   ("add_points_all", "api_add_all_points"); ("remove_points", "api_remove_points");
   ("remove_points_all", "api_remove_all_points")].

(** Attribute lookup on an object with the attributes [attrs]. *)
Inductive attr_lookup := AttrFound | AttributeError (msg : string).

Definition getattr (cls : string) (attrs : list string) (a : string) : attr_lookup :=
  if existsb (String.eqb a) attrs then AttrFound
  else AttributeError ("'" ++ cls ++ "' object has no attribute '" ++ a ++ "'").

(** Calling the [Interface] method [m]: the lookup of [self.__http.<attr>]. *)
Definition call_interface_api (m : string) : option attr_lookup :=
  option_map (getattr "HTTPHandler" HTTPHandler_attrs) (dget m Interface_api).

End Routes.


(** ** The daemon as a transition system over the plugin registry

    Every operation that reaches a plugin: the manager's methods called by the
    route handlers, the tasks they schedule when those run, and the
    interface methods plugin code calls. *)
Module Daemon.
Import Manager.

Inductive step : MState -> MState -> Prop :=
| step_load loads fresh dir pid s : step s (snd (load_plugin loads fresh dir pid s))
| step_reload sid s : step s (snd (reload_plugin sid s))
| step_unload sid s : step s (snd (unload_plugin sid s))
| step_inbound pl s : step s (snd (handle_inbound pl s))
| step_parse t str s : step s (snd (handle_parse t str s))
| step_button t k el s : step s (snd (handle_button t k el s))
| step_dispatch k ev data s : step s (snd (execute_callback k ev data s))
| step_error_task k ev tr s : step s (snd (run_plugin k (call_error_listeners ev tr) s))
| step_load_injector k inj s : step s (snd (run_plugin k (load_injector inj) s))
| step_unload_injector k inj s : step s (snd (run_plugin k (unload_injector inj) s))
| step_evict s : step s (snd (evict_plugins s))
| step_graceful s : step s (snd (graceful_shutdown s)).

(** States reachable from an empty registry. *)
Inductive reachable (g0 : Glob) : MState -> Prop :=
| reach_init : reachable g0 (mkM [] g0)
| reach_step s s' : reachable g0 s -> step s s' -> reachable g0 s'.

(** A plugin method leaves the [enabled] flag of its plugin as it was. *)
Definition keeps_enabled {A} (m : ST PS A) : Prop :=
  forall s, enabled (plug (snd (m s))) = enabled (plug s).

(** Every plugin of the registry has [enabled = False]. *)
Definition all_disabled (s : MState) : Prop :=
  Forall (fun kp => enabled (snd kp) = false) (plugins s).

(** A manager operation keeps [all_disabled]. *)
Definition keeps_disabled {A} (m : ST MState A) : Prop :=
  forall s, all_disabled s -> all_disabled (snd (m s)).

End Daemon.

(** ** Statements of the properties, and concrete inputs *)
Module Spec.
Import Manager.

(** The claim's pipeline step: the plugin's (first) parse listener rewrites
    the string; one that raises leaves it unchanged; no listener, no change. *)
Definition parse_step (p : Plugin) (s : string) : string :=
  match dget "parse" (listeners p) with
  | Some ((_, c) :: _) => match cb_run c s with CbOk r => r | CbRaise _ => s end
  | _ => s
  end.

(** One full pass over the registry in registration order. *)
Definition pipeline_pass (ps : list (string * Plugin)) (s : string) : string :=
  fold_left (fun acc kp => parse_step (snd kp) acc) ps s.

(** The report the listener [c] produces for an error with traceback [tr]. *)
Definition error_reply (c : Callback) (tr : list string) : string :=
  match cb_run c (String.concat "" tr) with
  | CbOk r => r
  | CbRaise tr2 => "An error occurred in the error handler" ++ nl ++ String.concat "" (chained_trace tr tr2)
  end.

Definition add_events (g : Glob) (es : list Event) : Glob :=
  mkGlob (fs g) (sys_modules g) (next_obj g) (events g ++ es).

(** The routes whose handler checks the bearer header first. *)
Definition header_guarded (r : Http.route) : bool :=
  match r with Http.RVersion | Http.RAuth | Http.RKill => false | _ => true end.


(** The effects of awaiting the entries [l] for [event]: each is invoked in
    order, and one that raises schedules the plugin's error chain. *)
Definition entries_events (dir event data : string) (l : list Entry) : list Event :=
  flat_map (fun e => Invoked (cb_id (snd e)) event ::
                     match cb_run (snd e) data with
                     | CbOk _ => []
                     | CbRaise tr => [ErrorTask dir event tr]
                     end) l.

(** The entries of [tbl] under [n], [[]] when there are none. *)
Definition entries_of (n : string) (tbl : dict (list Entry)) : list Entry :=
  match dget n tbl with Some l => l | None => [] end.

(** The callbacks [ls] lists under the name [n], in order. *)
Definition lookup_all (n : string) (ls : dict Callback) : list Callback :=
  map snd (filter (fun kv => String.eqb n (fst kv)) ls).

(** A request to one of the two handshake routes. *)
Inductive auth_req := AuthPost (token : string) (req : Http.Request) | PingPost (req : Http.Request).

Definition auth_route_step (st : Http.HState) (r : auth_req) : Http.HState :=
  match r with
  | AuthPost t req => snd (Http.route_auth t st req)
  | PingPost req => snd (Http.route_pingpong st req)
  end.

(** The handler state after a sequence of [/auth] and [/pingpong] requests. *)
Definition run_auth_routes (rs : list auth_req) (st : Http.HState) : Http.HState :=
  fold_left auth_route_step rs st.

(** Every nonce of the pending-call table has a pending future, and the
    table has no duplicate key. *)
Definition rpc_wf (st : Rpc.HTTPState) : Prop :=
  NoDup (map fst (Rpc.nonces st)) /\
  forall n, dmem n (Rpc.nonces st) = true -> dget n (Rpc.futures st) = Some Rpc.FutPending.

(** The values a computation can return, from any state: every [Ret a] it
    ends in satisfies [P]. *)
Definition only_returns {S A} (P : A -> Prop) (m : ST S A) : Prop :=
  forall s, match fst (m s) with Ret a => P a | Raise _ => True end.

End Spec.

Module Examples.
Import Manager.

Definition jfield (k v : string) : string := dq ++ k ++ dq ++ ": " ++ dq ++ v ++ dq.

Definition manifest_text : string :=
  "{" ++ jfield "name" "Demo" ++ ", " ++ jfield "description" "demo plugin" ++ ", " ++
  jfield "author" "someone" ++ ", " ++ jfield "version" "1.0" ++ "}".

Definition manifest : json :=
  JObject [("name", "Demo"); ("description", "demo plugin"); ("author", "someone"); ("version", "1.0")].

(** [ujson.loads] on the texts used here. *)
Definition loads_demo (t : string) : option json :=
  if String.eqb t manifest_text then Some manifest else None.

Definition on_message : Callback := mkCallback 1 (fun s => CbOk s).
Definition on_unload : Callback := mkCallback 2 (fun _ => CbOk "").

(** [class Demo(Injector)] with [@listen("message")] and [@listen("unload")]. *)
Definition demo_class : InjectorClass :=
  mkInjectorClass [("message", on_message); ("unload", on_unload)] on_error.

Definition demo_code : PluginCode := mkCode None [demo_class] None.

Definition demo_files : dict string := [("plugin.json", manifest_text); ("init.py", "")].

Definition demo_glob (files : dict string) (code : PluginCode) : Glob :=
  mkGlob [("demo", mkDir files code)] [] 10 [].

(** The ids of the listeners registered for [ev] by the plugin under [k]. *)
Definition listener_ids (s : MState) (k ev : string) : option (list nat) :=
  option_map (fun p => map (fun e => cb_id (snd e)) (match dget ev (listeners p) with Some l => l | None => [] end))
             (dget k (plugins s)).

(** A traceback whose frames do not contain [frames_split] (the frame sits at
    another line of [importlib._bootstrap] in another Python release). *)
Definition import_trace : list string :=
  ["Traceback (most recent call last):" ++ nl;
   "  File " ++ dq ++ "<frozen importlib._bootstrap>" ++ dq ++ ", line 488, in _call_with_frames_removed" ++ nl;
   "ZeroDivisionError: division by zero" ++ nl].

(** The directory after an earlier load persisted the id ["abc"]. *)
Definition marker_files : dict string := (demo_files ++ [(".__dock_store", "abc")])%list.

(** A traceback that contains [frames_split]. *)
Definition import_trace_241 : list string :=
  ["Traceback (most recent call last):" ++ nl; frames_split;
   "  File " ++ dq ++ "plugins/demo/init.py" ++ dq ++ ", line 1" ++ nl;
   "ZeroDivisionError: division by zero" ++ nl].

(** An [init] that loads [demo_class] and then raises. *)
Definition init_fail_code : PluginCode := mkCode None [demo_class] (Some ["boom" ++ nl]).

(** An injector whose [unload] listener raises, loaded by an [init] that then raises. *)
Definition unload_trace : list string := ["RuntimeError: cleanup failed" ++ nl].
Definition on_unload_raising : Callback := mkCallback 3 (fun _ => CbRaise unload_trace).
Definition raising_unload_class : InjectorClass :=
  mkInjectorClass [("unload", on_unload_raising)] on_error.
Definition raising_unload_code : PluginCode := mkCode None [raising_unload_class] (Some ["boom" ++ nl]).

(** A plugin whose only listener is the parse listener [c]. *)
Definition parse_plugin (dir : string) (c : Callback) : Plugin :=
  set_listeners (Plugin_new dir) [("parse", [(None, c)])].

Definition suffix_cb (id : nat) (suffix : string) : Callback :=
  mkCallback id (fun s => CbOk (s ++ suffix)).

(** The handler state after the handshake with secret ["secret"]. *)
Definition handshaken : Http.HState :=
  Http.mkH (Some "secret") (Some "tok") (Some Http.AuthOK) (Some "killcode").

Definition http_initial : Http.HState := Http.mkH None None (Some Http.PendingPingPong) (Some "killcode").

Definition authorized (C : string) : Http.Request := Http.mkReq [("Authorization", C)] [] [].

End Examples.

(** * Properties *)

Module DaemonFacts.
Import Manager Daemon.

Lemma keeps_ret {A} (a : A) : keeps_enabled (ret a).
Proof. intro s; reflexivity. Qed.

Lemma keeps_raise {A} e : keeps_enabled (A:=A) (raise e).
Proof. intro s; reflexivity. Qed.

Lemma keeps_bind {A B} (m : ST PS A) (k : A -> ST PS B) :
  keeps_enabled m -> (forall a, keeps_enabled (k a)) -> keeps_enabled (bind m k).
Proof.
  intros Hm Hk s; unfold bind; specialize (Hm s).
  destruct (m s) as [[a|e] s']; simpl in *; [rewrite Hk|]; exact Hm.
Qed.

Lemma keeps_try_catch {A} (m : ST PS A) (h : exn -> ST PS A) :
  keeps_enabled m -> (forall e, keeps_enabled (h e)) -> keeps_enabled (try_catch m h).
Proof.
  intros Hm Hh s; unfold try_catch; specialize (Hm s).
  destruct (m s) as [[a|e] s']; simpl in *; [|rewrite Hh]; exact Hm.
Qed.

Lemma keeps_get_plugin : keeps_enabled get_plugin.
Proof. intro s; reflexivity. Qed.

Lemma keeps_get_glob : keeps_enabled get_glob.
Proof. intro s; reflexivity. Qed.

Lemma keeps_modify_glob f : keeps_enabled (modify_glob f).
Proof. intro s; reflexivity. Qed.

Lemma keeps_emit e : keeps_enabled (emit e).
Proof. intro s; reflexivity. Qed.

Lemma keeps_fresh_obj : keeps_enabled fresh_obj.
Proof. intro s; reflexivity. Qed.

Lemma keeps_modify_plugin f :
  (forall p, enabled (f p) = enabled p) -> keeps_enabled (modify_plugin f).
Proof. intros Hf s; apply Hf. Qed.

Create HintDb keeps_db.

Ltac keeps_step :=
  first
  [ solve [eauto with keeps_db]
  | apply keeps_ret | apply keeps_raise | apply keeps_get_plugin | apply keeps_get_glob
  | apply keeps_modify_glob | apply keeps_emit | apply keeps_fresh_obj
  | apply keeps_modify_plugin; intro; reflexivity
  | apply keeps_bind; [ | intro ]
  | apply keeps_try_catch; [ | intro ]
  | match goal with
    | |- keeps_enabled (match ?x with _ => _ end) => destruct x
    | |- keeps_enabled (if ?x then _ else _) => destruct x
    | |- keeps_enabled (let _ := _ in _) => cbv zeta
    end ].

Ltac keeps := repeat keeps_step.

Lemma keeps_run_entries ev d l : keeps_enabled (run_entries ev d l).
Proof. induction l as [|[i c] r IH]; simpl; keeps. Qed.
#[local] Hint Resolve keeps_run_entries : keeps_db.

Lemma keeps_call_listeners ev d : keeps_enabled (call_listeners ev d).
Proof. unfold call_listeners; keeps. Qed.
#[local] Hint Resolve keeps_call_listeners : keeps_db.

Lemma keeps_eject_listeners : keeps_enabled eject_listeners.
Proof. unfold eject_listeners; keeps. Qed.
#[local] Hint Resolve keeps_eject_listeners : keeps_db.

Lemma keeps_eject : keeps_enabled eject.
Proof. unfold eject; keeps. Qed.
#[local] Hint Resolve keeps_eject : keeps_db.

Lemma keeps_load_injector inj : keeps_enabled (load_injector inj).
Proof. unfold load_injector, inj_setup, add_listeners; keeps. Qed.
#[local] Hint Resolve keeps_load_injector : keeps_db.

Lemma keeps_unload_injector inj : keeps_enabled (unload_injector inj).
Proof. unfold unload_injector, inj_teardown, remove_listeners; keeps. Qed.
#[local] Hint Resolve keeps_unload_injector : keeps_db.

Lemma keeps_init_loop l : keeps_enabled (init_loop l).
Proof. induction l; simpl; keeps. Qed.
#[local] Hint Resolve keeps_init_loop : keeps_db.

Lemma keeps_plugin_code : keeps_enabled plugin_code.
Proof. unfold plugin_code; keeps. Qed.
#[local] Hint Resolve keeps_plugin_code : keeps_db.

Lemma keeps_exec_module m : keeps_enabled (exec_module m).
Proof. unfold exec_module; keeps. Qed.
#[local] Hint Resolve keeps_exec_module : keeps_db.

Lemma keeps_try_load : keeps_enabled try_load.
Proof.
  unfold try_load, module_init, import_module, importlib_reload; keeps.
Qed.
#[local] Hint Resolve keeps_try_load : keeps_db.

Lemma keeps_call_error_listeners ev tr : keeps_enabled (call_error_listeners ev tr).
Proof. unfold call_error_listeners; keeps. Qed.
#[local] Hint Resolve keeps_call_error_listeners : keeps_db.

Lemma keeps_call_parse_hook s : keeps_enabled (call_parse_hook s).
Proof. unfold call_parse_hook; keeps. Qed.
#[local] Hint Resolve keeps_call_parse_hook : keeps_db.

Lemma keeps_load loads fresh sid : keeps_enabled (load loads fresh sid).
Proof.
  unfold load, load_meta, write_file, read_file, rename_dir; keeps.
Qed.
#[local] Hint Resolve keeps_load : keeps_db.


Lemma Forall_dset (P : Plugin -> Prop) k v (d : dict Plugin) :
  Forall (fun kp => P (snd kp)) d -> P v -> Forall (fun kp => P (snd kp)) (dset k v d).
Proof.
  induction d as [|[k' v'] r IH]; simpl; intros Hd Hv.
  - constructor; [exact Hv | constructor].
  - inversion Hd; subst. destruct (String.eqb k k').
    + constructor; assumption.
    + constructor; [assumption | apply IH; assumption].
Qed.

Lemma Forall_dget (P : Plugin -> Prop) k v (d : dict Plugin) :
  Forall (fun kp => P (snd kp)) d -> dget k d = Some v -> P v.
Proof.
  induction d as [|[k' v'] r IH]; simpl; intros Hd Hk; [discriminate|].
  inversion Hd; subst. destruct (String.eqb k k').
  - injection Hk as <-; assumption.
  - apply IH; assumption.
Qed.

Lemma disabled_ret {A} (a : A) : keeps_disabled (ret a).
Proof. intros s H; exact H. Qed.

Lemma disabled_raise {A} e : keeps_disabled (A:=A) (raise e).
Proof. intros s H; exact H. Qed.

Lemma disabled_get : keeps_disabled get.
Proof. intros s H; exact H. Qed.

Lemma disabled_memit e : keeps_disabled (memit e).
Proof. intros s H; exact H. Qed.

Lemma disabled_bind {A B} (m : ST MState A) (k : A -> ST MState B) :
  keeps_disabled m -> (forall a, keeps_disabled (k a)) -> keeps_disabled (bind m k).
Proof.
  intros Hm Hk s H; unfold bind; specialize (Hm s H).
  destruct (m s) as [[a|e] s']; simpl in *; [apply Hk|]; exact Hm.
Qed.

Lemma disabled_run_plugin {A} k (m : ST PS A) :
  keeps_enabled m -> keeps_disabled (run_plugin k m).
Proof.
  intros Hm s H; unfold run_plugin.
  destruct (dget k (plugins s)) as [p|] eqn:E; [|exact H].
  specialize (Hm (mkPS (mglob s) p)).
  destruct (m (mkPS (mglob s) p)) as [r ps]; simpl in *.
  unfold all_disabled; simpl. apply (Forall_dset (fun p => enabled p = false)); [exact H|].
  rewrite Hm; simpl. exact (Forall_dget (fun p => enabled p = false) k p _ H E).
Qed.

Create HintDb disabled_db.
#[local] Hint Resolve keeps_run_entries keeps_call_listeners keeps_call_error_listeners
  keeps_call_parse_hook keeps_load_injector keeps_unload_injector keeps_try_load keeps_eject : disabled_db.

Ltac disabled_step :=
  first
  [ solve [eauto with disabled_db]
  | apply disabled_ret | apply disabled_raise | apply disabled_get | apply disabled_memit
  | apply disabled_run_plugin; keeps
  | apply disabled_bind; [ | intro ]
  | match goal with
    | |- keeps_disabled (match ?x with _ => _ end) => destruct x
    | |- keeps_disabled (if ?x then _ else _) => destruct x
    | |- keeps_disabled (let _ := _ in _) => cbv zeta
    end ].

Ltac disabled := repeat disabled_step.

Lemma disabled_broadcast ps ev : keeps_disabled (broadcast ps ev).
Proof. induction ps as [|[k p] r IH]; simpl; disabled. Qed.
#[local] Hint Resolve disabled_broadcast : disabled_db.

Lemma disabled_parse_pass keys str : keeps_disabled (parse_pass keys str).
Proof. revert str; induction keys as [|k r IH]; intro str; simpl; disabled. Qed.
#[local] Hint Resolve disabled_parse_pass : disabled_db.

Lemma disabled_load_plugin loads fresh dir pid : keeps_disabled (load_plugin loads fresh dir pid).
Proof.
  unfold load_plugin. apply disabled_bind; [apply disabled_get|intro st].
  destruct (_ && _); [apply disabled_ret|].
  destruct (negb _); [apply disabled_ret|].
  intros s H.
  pose proof (keeps_load loads fresh pid (mkPS (mglob s) (Plugin_new dir))) as Hk.
  destruct (load loads fresh pid (mkPS (mglob s) (Plugin_new dir))) as [[[ok resp]|e] ps];
    simpl in *; [|exact H].
  destruct ok; [| |exact H];
    (destruct (match meta (plug ps) with Some m => script_id m | None => None end);
     [apply (Forall_dset (fun p => enabled p = false)); [exact H | exact Hk] | exact H]).
Qed.

Lemma step_keeps_disabled s s' : step s s' -> all_disabled s -> all_disabled s'.
Proof.
  intros Hs; destruct Hs; revert s;
    match goal with
    | |- forall s, all_disabled s -> all_disabled (snd (?m s)) => change (keeps_disabled m)
    end.
  - apply disabled_load_plugin.
  - unfold reload_plugin; disabled.
  - unfold unload_plugin; disabled.
  - unfold handle_inbound; disabled.
  - unfold handle_parse; disabled.
  - unfold handle_button; disabled.
  - unfold execute_callback; disabled.
  - disabled.
  - disabled.
  - disabled.
  - unfold evict_plugins; disabled.
  - unfold graceful_shutdown; disabled.
Qed.

Lemma reachable_all_disabled g0 s : reachable g0 s -> all_disabled s.
Proof.
  induction 1 as [|s s' _ IH Hst].
  - constructor.
  - exact (step_keeps_disabled s s' Hst IH).
Qed.

Lemma broadcast_all_disabled ps ev s :
  Forall (fun kp => enabled (snd kp) = false) ps -> broadcast ps ev s = (Ret tt, s).
Proof.
  revert s; induction ps as [|[k p] r IH]; intros s H; simpl; [reflexivity|].
  inversion H; subst; simpl in *. unfold bind at 1. rewrite H2. apply IH; assumption.
Qed.

End DaemonFacts.

Module ParseFacts.
Import Manager Spec.

Lemma dset_same {V} k (v : V) d : dget k d = Some v -> dset k v d = d.
Proof.
  induction d as [|[k' v'] r IH]; simpl; [discriminate|].
  destruct (String.eqb k k') eqn:E.
  - intros H; injection H as ->. apply String.eqb_eq in E; subst; reflexivity.
  - intros H; rewrite (IH H); reflexivity.
Qed.

Lemma dget_dset_same {V} k (v : V) d : dget k (dset k v d) = Some v.
Proof.
  induction d as [|[k' v'] r IH]; simpl.
  - rewrite String.eqb_refl; reflexivity.
  - destruct (String.eqb k k') eqn:E; simpl.
    + rewrite String.eqb_refl; reflexivity.
    + rewrite E; exact IH.
Qed.

Lemma call_parse_hook_spec g p s :
  exists g', call_parse_hook s (mkPS g p) = (Ret (parse_step p s), mkPS g' p).
Proof.
  unfold call_parse_hook, parse_step; cbn.
  destruct (dget "parse" (listeners p)) as [[|[i c] r]|]; cbn; try (eexists; reflexivity).
  destruct (cb_run c s); cbn; eexists; reflexivity.
Qed.

Lemma parse_step_no_hook p s : has_parse_hook p = false -> parse_step p s = s.
Proof.
  unfold has_parse_hook, parse_step.
  destruct (dget "parse" (listeners p)) as [[|[i c] r]|]; auto; discriminate.
Qed.

#[local] Arguments call_parse_hook : simpl never.

(** A pass reads each key's plugin and leaves the registry as it was. *)
Lemma parse_pass_spec keys ps g s :
  exists g', parse_pass keys s (mkM ps g) =
    (Ret (fold_left (fun acc k => match dget k ps with Some p => parse_step p acc | None => acc end) keys s),
     mkM ps g').
Proof.
  revert g s; induction keys as [|k r IH]; intros g s; cbn; [eexists; reflexivity|].
  destruct (dget k ps) as [p|] eqn:Ek; [|apply IH].
  destruct (has_parse_hook p) eqn:Eh; [|rewrite parse_step_no_hook by exact Eh; apply IH].
  destruct (call_parse_hook_spec g p s) as [g1 Hc].
  unfold run_plugin, bind at 1; cbn. rewrite Ek, Hc; cbn.
  rewrite (dset_same k p ps Ek). apply IH.
Qed.

Lemma nodup_in_dget (ps : list (string * Plugin)) k v :
  NoDup (map fst ps) -> In (k, v) ps -> dget k ps = Some v.
Proof.
  induction ps as [|[k' v'] r IH]; cbn; intros Hn Hin; [contradiction|].
  inversion Hn as [|? ? Hnot Hr]; subst.
  destruct Hin as [Heq|Hin].
  - injection Heq as -> ->. rewrite String.eqb_refl; reflexivity.
  - destruct (String.eqb k k') eqn:E.
    + apply String.eqb_eq in E; subst. exfalso; apply Hnot.
      apply (in_map fst) in Hin; exact Hin.
    + apply IH; assumption.
Qed.

Lemma fold_lookup_pass (ps : list (string * Plugin)) d s :
  (forall k v, In (k, v) ps -> dget k d = Some v) ->
  fold_left (fun acc k => match dget k d with Some p => parse_step p acc | None => acc end) (map fst ps) s =
  pipeline_pass ps s.
Proof.
  unfold pipeline_pass; revert s; induction ps as [|[k v] r IH]; intros s H; cbn; [reflexivity|].
  rewrite (H k v (or_introl eq_refl)). apply IH. intros k' v' Hin; apply H; right; exact Hin.
Qed.

End ParseFacts.

(** ** The authorization checks of the HTTP handler *)
Module HttpFacts.
Import Http.

(** With a secret [C] set, [bad_auth] is false exactly when the header is [C]. *)
Lemma bad_auth_secret st req C :
  auth st = Some C ->
  bad_auth st req = negb (match dget "Authorization" (headers req) with
                          | Some h => String.eqb h C
                          | None => false
                          end).
Proof.
  intros Ha. unfold bad_auth, dmem. rewrite Ha.
  destruct (dget "Authorization" (headers req)); reflexivity.
Qed.

(** A successful handshake leaves the secret [C] in the handler state. *)
Lemma handshake_auth C token st0 st :
  handshake C token st0 = Some st -> auth st = Some C.
Proof.
  unfold handshake.
  destruct (route_auth token st0 (mkReq [] [] [("code", C)])) as [[r1|e1] st1] eqn:E1;
    [|discriminate].
  destruct (challenge st1) as [ch|] eqn:Ech; [|discriminate].
  unfold route_pingpong.
  destruct (bad_auth st1 (mkReq [("Authorization", C)] [] [("challenge", ch)])) eqn:B;
    [discriminate|].
  assert (Ha1 : auth st1 = Some C).
  { unfold bad_auth in B; cbn in B.
    destruct (auth st1) as [a|]; [|discriminate].
    apply negb_false_iff, String.eqb_eq in B. subst; reflexivity. }
  rewrite Ech; cbn. destruct (String.eqb ch ch); cbn; [|discriminate].
  intros H; injection H as <-; exact Ha1.
Qed.

End HttpFacts.

Module Claims.
Import Manager Spec Examples DaemonFacts ParseFacts.

(** C1: an acknowledgement that carries the call's nonce resolves
    [put_request] with its response and removes the pending entry.  When the
    deadline passes instead, [asyncio.wait_for] raises [TimeoutError]. The
    [except asyncio.CancelledError] clause does not catch it, so the call
    raises and the nonce stays in the pending-call table. *)
Theorem put_request_timeout_raises :
  (let '(r, st) := Rpc.put_request "n1" "GetPoints" [[("n1", "42")]] false Rpc.empty_http in
   r = Ret (Some "42") /\ Rpc.nonces st = []) /\
  (let '(r, st) := Rpc.put_request "n1" "GetPoints" [] false Rpc.empty_http in
   r = Raise TimeoutError /\ dmem "n1" (Rpc.nonces st) = true).
Proof. vm_compute; repeat split. Qed.

(** C2: [reload_plugin] ejects only a plugin whose [_is_loaded] is set, and
    never sets it again.  So the second of two reloads does not run the
    [unload] listeners and does not clear the table, while [init] registers
    its listeners once more: [message] ends up registered twice. *)
Theorem reload_twice_duplicates_listeners :
  let s1 := snd (load_plugin loads_demo "f1" "demo" None (mkM [] (demo_glob demo_files demo_code))) in
  let s2 := snd (reload_plugin "f1" s1) in
  let s3 := snd (reload_plugin "f1" s2) in
  fst (reload_plugin "f1" s1) = Ret None /\
  option_map is_loaded (dget "f1" (plugins s2)) = Some false /\
  listener_ids s2 "f1" "message" = Some [1] /\
  listener_ids s3 "f1" "message" = Some [1; 1] /\
  events (mglob s3) =
    [InitCalled "plugins.f1.init"; Invoked 2 "unload";
     InitCalled "plugins.f1.init"; InitCalled "plugins.f1.init"].
Proof. vm_compute; repeat split. Qed.

(** C3 (counterexample): an authorized [button] request that names an
    unregistered plugin makes the [/inbound/button] handler raise, and the
    caller does not get the 204 success response. *)
Theorem inbound_button_unknown_counterexample :
  fst (Http.inbound_button (Http.mkH (Some "secret") None (Some Http.AuthOK) None)
         (authorized "secret") PayloadTypeEnum_button "nope" "btn"
         (mkM [] (demo_glob demo_files demo_code)))
  = Raise (ValueError "Unknown plugin id").
Proof. vm_compute; reflexivity. Qed.

(** C3 (amended): for an authorized [button] request whose plugin id is not
    in the registry, the handler dispatches no listener and leaves the
    registry unchanged. It logs exactly one warning, and the [ValueError]
    ["Unknown plugin id"] raised by [handle_button] propagates out of
    [inbound_button]. *)
Theorem inbound_button_unknown_raises hst req id el s :
  Http.bad_auth hst req = false -> dmem id (plugins s) = false ->
  Http.inbound_button hst req PayloadTypeEnum_button id el s =
    (Raise (ValueError "Unknown plugin id"),
     mkM (plugins s)
         (add_events (mglob s)
            [Warning ("Inbound button payload referencing unknown plugin " ++ id ++ ". Discarding")])).
Proof.
  intros Ha Hm. unfold Http.inbound_button, handle_button. rewrite Ha.
  unfold bind, get; simpl. rewrite Hm. reflexivity.
Qed.

Lemma inbound_button_unknown_raises_witness :
  Http.inbound_button (Http.mkH (Some "secret") None (Some Http.AuthOK) None)
    (authorized "secret") PayloadTypeEnum_button "nope" "btn" (mkM [] (demo_glob demo_files demo_code)) =
  (Raise (ValueError "Unknown plugin id"),
   mkM [] (add_events (demo_glob demo_files demo_code)
             [Warning ("Inbound button payload referencing unknown plugin " ++ "nope" ++ ". Discarding")])).
Proof. apply inbound_button_unknown_raises; reflexivity. Defined.

(** C4: [load_meta] tests [".__dock_store" not in files] in both branches.
    With a persisted marker and no caller-supplied id, no id is resolved and
    [Plugin.load] then fails on [Path / None].  With a caller-supplied id and
    no marker, it opens the missing marker.  Only the fresh-id path works. *)
Theorem load_meta_marker_ignored :
  (let '(r, ps) := load_meta loads_demo "f1" None (mkPS (demo_glob marker_files demo_code) (Plugin_new "demo")) in
   r = Ret tt /\ option_map script_id (meta (plug ps)) = Some None) /\
  fst (load_plugin loads_demo "f1" "demo" None (mkM [] (demo_glob marker_files demo_code))) =
    Raise (TypeError "unsupported operand type(s) for /: 'WindowsPath' and 'NoneType'") /\
  fst (load_plugin loads_demo "f1" "demo" (Some "abc") (mkM [] (demo_glob demo_files demo_code))) =
    Raise (FileNotFoundError "demo/.__dock_store") /\
  fst (load_plugin loads_demo "f1" "demo" None (mkM [] (demo_glob demo_files demo_code))) =
    Ret (true, Some "f1", "f1").
Proof. vm_compute; repeat split. Qed.

(** C5: a missing manifest is a pre-load failure that registers nothing.  An
    [init] failure registers the plugin, not loaded and with its listeners
    ejected, and returns the traceback.  An import failure whose traceback
    contains the frame line [try_load] looks for is registered the same way.
    When that line is absent, [trace.index(split)] raises [ValueError]: it
    escapes [load_plugin], nothing is registered and no traceback is
    returned. *)
Theorem load_plugin_import_trace_escapes :
  (let '(r, s) := load_plugin loads_demo "f1" "demo" None
                    (mkM [] (demo_glob demo_files (mkCode (Some import_trace) [] None))) in
   r = Raise (ValueError (frames_split ++ " is not in list")) /\ plugins s = []) /\
  (let '(r, s) := load_plugin loads_demo "f1" "demo" None
                    (mkM [] (demo_glob demo_files (mkCode (Some import_trace_241) [] None))) in
   r = Ret (false, Some "f1",
            failure_message "Demo" "Failed to load module" ++ nl ++
            String.concat "" (("Traceback (most recent call last):" ++ nl) :: skipn 2 import_trace_241)) /\
   option_map is_loaded (dget "f1" (plugins s)) = Some false) /\
  (let '(r, s) := load_plugin loads_demo "f1" "demo" None (mkM [] (demo_glob [("init.py", "")] demo_code)) in
   r = Ret (false, None, "Could not identify the plugin for loading:" ++ nl ++
                         failure_message "@demo" "directory does not contain a plugin.json file.") /\
   plugins s = []) /\
  (let '(r, s) := load_plugin loads_demo "f1" "demo" None (mkM [] (demo_glob demo_files init_fail_code)) in
   r = Ret (false, Some "f1", failure_message "Demo" "Encountered an error while calling init" ++ nl ++ "boom" ++ nl) /\
   option_map is_loaded (dget "f1" (plugins s)) = Some false /\
   listener_ids s "f1" "message" = Some []).
Proof. vm_compute; repeat split. Qed.

(** C6: [handle_parse] threads the string through the plugins that have a
    parse listener, in registration order, for two full passes.  A listener
    that raises leaves the string unchanged.  For two plugins with
    non-raising transforms [f1] then [f2], the result is [f2 (f1 (f2 (f1 S)))]. *)
Theorem handle_parse_two_passes :
  (forall ps g S, NoDup (map fst ps) ->
     fst (handle_parse PayloadTypeEnum_parse S (mkM ps g)) = Ret (pipeline_pass ps (pipeline_pass ps S))) /\
  (forall k1 k2 P1 P2 i1 c1 r1 i2 c2 r2 (f1 f2 : string -> string) g S,
     k1 <> k2 ->
     dget "parse" (listeners P1) = Some ((i1, c1) :: r1) -> (forall x, cb_run c1 x = CbOk (f1 x)) ->
     dget "parse" (listeners P2) = Some ((i2, c2) :: r2) -> (forall x, cb_run c2 x = CbOk (f2 x)) ->
     fst (handle_parse PayloadTypeEnum_parse S (mkM [(k1, P1); (k2, P2)] g)) = Ret (f2 (f1 (f2 (f1 S))))).
Proof.
  assert (Hgen : forall ps g S, NoDup (map fst ps) ->
     fst (handle_parse PayloadTypeEnum_parse S (mkM ps g)) = Ret (pipeline_pass ps (pipeline_pass ps S))).
  { intros ps g S Hn.
    assert (Hl : forall k v, In (k, v) ps -> dget k ps = Some v)
      by (intros k v; apply nodup_in_dget; exact Hn).
    unfold handle_parse; cbn [negb Nat.eqb PayloadTypeEnum_parse].
    unfold bind at 1, get at 1; cbn [plugins].
    destruct (parse_pass_spec (map fst ps) ps g S) as [g1 H1].
    unfold bind at 1; rewrite H1. unfold bind, get; cbn [plugins].
    destruct (parse_pass_spec (map fst ps) ps g1
                (fold_left (fun acc k => match dget k ps with Some p => parse_step p acc | None => acc end)
                           (map fst ps) S)) as [g2 H2].
    rewrite H2; cbn [fst]. rewrite !(fold_lookup_pass ps ps) by exact Hl. reflexivity. }
  split; [exact Hgen|].
  intros k1 k2 P1 P2 i1 c1 r1 i2 c2 r2 f1 f2 g S Hk H1 Hf1 H2 Hf2.
  rewrite Hgen.
  - assert (Hp1 : forall x, parse_step P1 x = f1 x)
      by (intro x; unfold parse_step; rewrite H1, Hf1; reflexivity).
    assert (Hp2 : forall x, parse_step P2 x = f2 x)
      by (intro x; unfold parse_step; rewrite H2, Hf2; reflexivity).
    unfold pipeline_pass; cbn [fold_left snd]. rewrite !Hp1, !Hp2. reflexivity.
  - constructor; [cbn; intros [H|[]]; apply Hk; symmetry; exact H|].
    constructor; [intros []|constructor].
Qed.

Lemma handle_parse_two_passes_witness :
  fst (handle_parse PayloadTypeEnum_parse "S"
         (mkM [("p1", parse_plugin "p1" (suffix_cb 7 "+a")); ("p2", parse_plugin "p2" (suffix_cb 8 "+b"))]
              (demo_glob demo_files demo_code)))
  = Ret ((fun x => x ++ "+b") ((fun x => x ++ "+a") ((fun x => x ++ "+b") ((fun x => x ++ "+a") "S")))).
Proof.
  apply (proj2 handle_parse_two_passes "p1" "p2" _ _ None (suffix_cb 7 "+a") [] None (suffix_cb 8 "+b") []);
    try reflexivity; discriminate.
Defined.

(** C7: after a handshake with secret [C], [/kill] checks only the
    [code] query parameter against the kill code: a request carrying the
    header [C] is refused with 401 and one with a wrong header is accepted.
    [/auth] refuses every request with 401 once the secret is set. *)
Theorem route_guard_counterexample :
  Http.handshake "secret" "tok" http_initial = Some handshaken /\
  Http.route_guard Http.RKill handshaken (authorized "secret") = Some (Http.json_error 401 "missing code") /\
  Http.route_guard Http.RAuth handshaken (authorized "secret") = Some (Http.mkResp 401 "Auth already set") /\
  Http.route_guard Http.RKill handshaken
    (Http.mkReq [("Authorization", "wrong")] [("code", "killcode")] []) = None.
Proof. vm_compute; repeat split. Qed.

(** C7 (amended): after a successful handshake with secret [C], every route
    other than [/version], [/auth] and [/kill] lets a request through when
    its Authorization header equals [C] and answers 401 when the header is
    absent or differs.  [/version] checks nothing, and [/auth] answers 401 to
    every request when [C] is non-empty.  [/kill] checks only the [code]
    query parameter against the kill code: with a non-empty kill code [k] it
    lets a request through exactly when its [code] is [k] and answers 401
    otherwise, with no kill code it answers 401 to every request, and in
    every case its answer depends on the query alone, not on the headers. *)
Theorem route_guard_after_handshake C token st0 st :
  Http.handshake C token st0 = Some st ->
  forall r req,
    (header_guarded r = true ->
       (dget "Authorization" (Http.headers req) = Some C -> Http.route_guard r st req = None) /\
       (dget "Authorization" (Http.headers req) <> Some C ->
          exists resp, Http.route_guard r st req = Some resp /\ Http.status resp = 401)) /\
    Http.route_guard Http.RVersion st req = None /\
    (C <> "" -> exists resp, Http.route_guard Http.RAuth st req = Some resp /\ Http.status resp = 401) /\
    (forall k, Http.kill_code st = Some k -> k <> "" ->
       (dget "code" (Http.query req) = Some k -> Http.route_guard Http.RKill st req = None) /\
       (dget "code" (Http.query req) <> Some k ->
          exists resp, Http.route_guard Http.RKill st req = Some resp /\ Http.status resp = 401)) /\
    (truthy (Http.kill_code st) = false ->
       exists resp, Http.route_guard Http.RKill st req = Some resp /\ Http.status resp = 401) /\
    (forall req', Http.query req' = Http.query req ->
       Http.route_guard Http.RKill st req' = Http.route_guard Http.RKill st req).
Proof.
  intros Hh r req. pose proof (HttpFacts.handshake_auth _ _ _ _ Hh) as Ha.
  split; [intros Hg; split|split; [reflexivity|split; [|split; [|split]]]].
  - intros Hc.
    assert (Hb : Http.bad_auth st req = false)
      by (rewrite (HttpFacts.bad_auth_secret _ _ _ Ha), Hc, String.eqb_refl; reflexivity).
    destruct r; try discriminate Hg; cbn [Http.route_guard]; rewrite Hb; reflexivity.
  - intros Hc.
    assert (Hb : Http.bad_auth st req = true).
    { rewrite (HttpFacts.bad_auth_secret _ _ _ Ha).
      destruct (dget "Authorization" (Http.headers req)) as [h|]; [|reflexivity].
      destruct (String.eqb h C) eqn:E; [|reflexivity].
      apply String.eqb_eq in E; subst; contradiction. }
    destruct r; try discriminate Hg; cbn [Http.route_guard]; rewrite Hb; eexists; split; reflexivity.
  - intros Hc. cbn [Http.route_guard]. rewrite Ha. unfold truthy.
    destruct (String.eqb C "") eqn:E; [apply String.eqb_eq in E; contradiction|].
    cbn [negb]. eexists; split; reflexivity.
  - intros k Hk Hne. cbn [Http.route_guard]. rewrite Hk. unfold truthy.
    rewrite (proj2 (String.eqb_neq k "") Hne). cbn [negb]. unfold dmem. split.
    + intros Hc. rewrite Hc, String.eqb_refl. reflexivity.
    + intros Hc. destruct (dget "code" (Http.query req)) as [c|]; [|eexists; split; reflexivity].
      destruct (String.eqb c k) eqn:E; [apply String.eqb_eq in E; subst; contradiction|].
      eexists; split; reflexivity.
  - intros Ht. cbn [Http.route_guard]. rewrite Ht. eexists; split; reflexivity.
  - intros req' Hq. cbn [Http.route_guard]. unfold dmem. rewrite Hq. reflexivity.
Qed.

Lemma route_guard_after_handshake_witness :
  Http.handshake "secret" "tok" http_initial = Some handshaken /\
  ((header_guarded Http.RInbound = true ->
     (dget "Authorization" (Http.headers (authorized "secret")) = Some "secret" ->
        Http.route_guard Http.RInbound handshaken (authorized "secret") = None) /\
     (dget "Authorization" (Http.headers (authorized "secret")) <> Some "secret" ->
        exists resp, Http.route_guard Http.RInbound handshaken (authorized "secret") = Some resp /\
                     Http.status resp = 401)) /\
   Http.route_guard Http.RVersion handshaken (authorized "secret") = None /\
   ("secret" <> "" -> exists resp, Http.route_guard Http.RAuth handshaken (authorized "secret") = Some resp /\
                                   Http.status resp = 401) /\
   (forall k, Http.kill_code handshaken = Some k -> k <> "" ->
      (dget "code" (Http.query (authorized "secret")) = Some k ->
         Http.route_guard Http.RKill handshaken (authorized "secret") = None) /\
      (dget "code" (Http.query (authorized "secret")) <> Some k ->
         exists resp, Http.route_guard Http.RKill handshaken (authorized "secret") = Some resp /\
                      Http.status resp = 401)) /\
   (truthy (Http.kill_code handshaken) = false ->
      exists resp, Http.route_guard Http.RKill handshaken (authorized "secret") = Some resp /\
                   Http.status resp = 401) /\
   (forall req', Http.query req' = Http.query (authorized "secret") ->
      Http.route_guard Http.RKill handshaken req' = Http.route_guard Http.RKill handshaken (authorized "secret"))).
Proof.
  split; [reflexivity|].
  exact (route_guard_after_handshake "secret" "tok" http_initial handshaken eq_refl
           Http.RInbound (authorized "secret")).
Defined.

(** C8: an [unload] listener that raises while [Plugin.load] ejects a
    plugin whose [init] failed schedules its error task, and the listener
    table is then cleared.  When the task runs, the table holds no [error]
    entry: [call_error_listeners] returns without invoking any handler and
    without reporting anything, so no default handler formats the trace. *)
Theorem call_error_listeners_counterexample :
  let s1 := snd (load_plugin loads_demo "f1" "demo" None
                   (mkM [] (demo_glob demo_files raising_unload_code))) in
  events (mglob s1) = [InitCalled "plugins.f1.init"; Invoked 3 "unload";
                       ErrorTask "f1" "unload" unload_trace] /\
  snd (run_plugin "f1" (call_error_listeners "unload" unload_trace) s1) = s1.
Proof. vm_compute; split; reflexivity. Qed.

(** C8 (amended): when the plugin's listener table has an [error] entry
    list, only its first handler runs; its reply, followed by the
    multiple-handlers note when the list has more than one entry, is the
    report.  When the table has no [error] entry, nothing runs and nothing
    is reported: the default [on_error], which replies with the formatted
    traceback, is not run as a fallback. *)
Theorem call_error_listeners_first_only g p ev tr :
  (dget "error" (listeners p) = None ->
     call_error_listeners ev tr (mkPS g p) = (Ret tt, mkPS g p)) /\
  (forall i c rest, dget "error" (listeners p) = Some ((i, c) :: rest) ->
     call_error_listeners ev tr (mkPS g p) =
       (Ret tt, mkPS (add_events g
                        [Invoked (cb_id c) "error";
                         NotifyError (match meta p with Some m => script_id m | None => None end)
                           (match rest with
                            | [] => error_reply c tr
                            | _ :: _ => error_reply c tr ++ multiple_handlers_note
                            end)]) p)) /\
  error_reply on_error tr = String.concat "" tr.
Proof.
  split; [|split].
  - intros H. cbv [call_error_listeners bind get_plugin]; cbn [plug]. rewrite H. reflexivity.
  - intros i c rest H. cbv [call_error_listeners bind get_plugin]; cbn [plug]. rewrite H.
    cbv [emit modify_glob]; cbn [glob plug fs sys_modules next_obj events].
    unfold add_events, error_reply. rewrite <- app_assoc.
    destruct rest; reflexivity.
  - reflexivity.
Qed.

(** C9: loading an injector twice raises [InjectorLoadUnloadError] and
    changes nothing, and a load attaches the injector's handlers, [error]
    included.  Unloading an injector that is not attached raises the
    [ValueError] of [list.remove], which [except KeyError] does not turn
    into [InjectorLoadUnloadError].  Unloading an attached injector detaches
    it from the interface but leaves its handlers in the listener table:
    [remove(cb)] compares the function with [(injector, cb)] tuples. *)
Theorem unload_injector_misuse :
  let inj := Injector_new demo_class 5 in
  let ps0 := mkPS (demo_glob demo_files demo_code) (Plugin_new "demo") in
  let ps1 := snd (load_injector inj ps0) in
  let ps2 := snd (unload_injector inj ps1) in
  fst (load_injector inj ps0) = Ret tt /\
  listeners (plug ps1) = [("message", [(Some inj, on_message)]); ("unload", [(Some inj, on_unload)]);
                          ("error", [(Some inj, on_error)])] /\
  fst (load_injector inj ps1) = Raise (InjectorLoadUnloadError "Injector is already loaded") /\
  snd (load_injector inj ps1) = ps1 /\
  fst (unload_injector inj ps0) = Raise (ValueError "list.remove(x): x not in list") /\
  fst (unload_injector inj ps1) = Ret tt /\
  injectors (plug ps2) = [] /\
  listeners (plug ps2) = listeners (plug ps1).
Proof. vm_compute; repeat split. Qed.

(** C10: every [Plugin] starts with [enabled = False] and no operation of
    the daemon sets it, so in every state reachable from an empty registry
    all plugins are disabled and an execute payload (type 0), the one that
    broadcasts [message] and [raw_message], dispatches to no plugin and
    leaves the state unchanged. *)
Theorem enabled_never_set g0 s :
  Daemon.reachable g0 s ->
  (forall d, enabled (Plugin_new d) = false) /\
  Daemon.all_disabled s /\
  (forall pl, pl_type pl = 0 -> handle_inbound pl s = (Ret tt, s)).
Proof.
  intros R. pose proof (reachable_all_disabled g0 s R) as Hd.
  split; [reflexivity|split; [exact Hd|]].
  intros pl Ht. cbv [handle_inbound bind get]. rewrite Ht; cbn [Nat.eqb].
  apply broadcast_all_disabled. exact Hd.
Qed.

Lemma enabled_never_set_witness :
  let s := snd (load_plugin loads_demo "f1" "demo" None (mkM [] (demo_glob demo_files demo_code))) in
  Daemon.reachable (demo_glob demo_files demo_code) s /\
  plugins s <> [] /\
  ((forall d, enabled (Plugin_new d) = false) /\
   Daemon.all_disabled s /\
   (forall pl, pl_type pl = 0 -> handle_inbound pl s = (Ret tt, s))).
Proof.
  intros s.
  assert (R : Daemon.reachable (demo_glob demo_files demo_code) s)
    by (eapply Daemon.reach_step; [apply Daemon.reach_init | apply Daemon.step_load]).
  split; [exact R|split; [vm_compute; discriminate|]].
  exact (enabled_never_set _ _ R).
Defined.

End Claims.

(** ** Facts used by the further properties *)
Module ExtraFacts.
Import Manager Spec.

Lemma dget_dset {V} n m (v : V) d :
  dget n (dset m v d) = if String.eqb n m then Some v else dget n d.
Proof.
  induction d as [|[k w] r IH]; simpl; [reflexivity|].
  destruct (String.eqb m k) eqn:E; simpl.
  - apply String.eqb_eq in E; subst. destruct (String.eqb n k); reflexivity.
  - rewrite IH. destruct (String.eqb n k) eqn:Enk; [|reflexivity].
    apply String.eqb_eq in Enk; subst. rewrite String.eqb_sym, E. reflexivity.
Qed.

Lemma dget_ddel_other {V} n m (d : dict V) :
  String.eqb n m = false -> dget n (ddel m d) = dget n d.
Proof.
  intros Hnm. induction d as [|[k w] r IH]; simpl; [reflexivity|].
  destruct (String.eqb m k) eqn:E; simpl.
  - apply String.eqb_eq in E; subst. rewrite Hnm. reflexivity.
  - rewrite IH. reflexivity.
Qed.

Lemma dget_none_not_in {V} n (d : dict V) : dget n d = None -> ~ In n (map fst d).
Proof.
  induction d as [|[k w] r IH]; simpl; [auto|].
  destruct (String.eqb n k) eqn:E; [discriminate|].
  intros H [H1|H1]; [subst; rewrite String.eqb_refl in E; discriminate|exact (IH H H1)].
Qed.

Lemma not_in_dget_none {V} n (d : dict V) : ~ In n (map fst d) -> dget n d = None.
Proof.
  induction d as [|[k w] r IH]; simpl; [auto|].
  intros H. destruct (String.eqb n k) eqn:E.
  - apply String.eqb_eq in E; subst. exfalso; apply H; left; reflexivity.
  - apply IH. intros H1; apply H; right; exact H1.
Qed.

Lemma keys_dset {V} n (v : V) d :
  map fst (dset n v d) = if dmem n d then map fst d else (map fst d ++ [n])%list.
Proof.
  unfold dmem. induction d as [|[k w] r IH]; simpl; [reflexivity|].
  destruct (String.eqb n k) eqn:E; simpl.
  - apply String.eqb_eq in E; subst. reflexivity.
  - rewrite IH. destruct (dget n r); reflexivity.
Qed.

Lemma NoDup_dset {V} n (v : V) d : NoDup (map fst d) -> NoDup (map fst (dset n v d)).
Proof.
  intros H. rewrite keys_dset. unfold dmem. destruct (dget n d) eqn:E; [exact H|].
  apply (Permutation.Permutation_NoDup (Permutation.Permutation_cons_append (map fst d) n)).
  constructor; [apply dget_none_not_in; exact E|exact H].
Qed.

Lemma keys_ddel_incl {V} n x (d : dict V) : In x (map fst (ddel n d)) -> In x (map fst d).
Proof.
  induction d as [|[k w] r IH]; simpl; [auto|].
  destruct (String.eqb n k); simpl; [auto|]. intros [H|H]; [left; exact H|right; auto].
Qed.

Lemma NoDup_ddel {V} n (d : dict V) : NoDup (map fst d) -> NoDup (map fst (ddel n d)).
Proof.
  induction d as [|[k w] r IH]; simpl; [auto|].
  intros H; inversion H as [|? ? Hk Hr]; subst.
  destruct (String.eqb n k); simpl; [exact Hr|].
  constructor; [intros Hin; apply Hk; exact (keys_ddel_incl _ _ _ Hin)|exact (IH Hr)].
Qed.

Lemma dget_ddel_same {V} n (d : dict V) : NoDup (map fst d) -> dget n (ddel n d) = None.
Proof.
  induction d as [|[k w] r IH]; simpl; [auto|].
  intros H; inversion H as [|? ? Hk Hr]; subst.
  destruct (String.eqb n k) eqn:E.
  - apply String.eqb_eq in E; subst. apply not_in_dget_none; exact Hk.
  - simpl. rewrite E. exact (IH Hr).
Qed.

Lemma ddel_dset_fresh {V} n (v : V) d : dget n d = None -> ddel n (dset n v d) = d.
Proof.
  induction d as [|[k w] r IH]; simpl.
  - rewrite String.eqb_refl. reflexivity.
  - destruct (String.eqb n k) eqn:E; [discriminate|].
    intros H; simpl. rewrite E, (IH H). reflexivity.
Qed.

Lemma add_events_nil g : add_events g [] = g.
Proof. destruct g; unfold add_events; simpl; rewrite app_nil_r; reflexivity. Qed.

Lemma add_events_app g a b : add_events (add_events g a) b = add_events g (a ++ b).
Proof. destruct g; unfold add_events; simpl; rewrite app_assoc; reflexivity. Qed.

Lemma set_listeners_same p : set_listeners p (listeners p) = p.
Proof. destruct p; reflexivity. Qed.

(** [add_listeners]: each name's list gets the new entries appended. *)
Lemma add_listeners_loop_get inj ls tbl n :
  dget n (add_listeners_loop inj ls tbl) =
  if dmem n tbl || existsb (String.eqb n) (map fst ls)
  then Some (entries_of n tbl ++ map (fun cb => (inj, cb)) (lookup_all n ls))%list
  else None.
Proof.
  revert tbl; induction ls as [|[m cb] r IH]; intros tbl; simpl.
  - unfold dmem, entries_of, lookup_all; simpl.
    destruct (dget n tbl); simpl; [rewrite app_nil_r|]; reflexivity.
  - rewrite IH. unfold dmem, entries_of, lookup_all. rewrite !dget_dset. simpl.
    destruct (String.eqb n m) eqn:E; simpl.
    + apply String.eqb_eq in E; subst. rewrite ?String.eqb_refl, ?orb_true_r; simpl.
      rewrite <- app_assoc. reflexivity.
    + reflexivity.
Qed.

(** [list.remove(cb)] on a list of [(injector, cb)] tuples never finds [cb]. *)
Lemma list_remove_func c l : list_remove (PyFunc c) l = None.
Proof. induction l as [|[i d] r IH]; simpl; [reflexivity|]. rewrite IH; reflexivity. Qed.

Lemma remove_listeners_loop_id ls tbl : remove_listeners_loop ls tbl = tbl.
Proof.
  induction ls as [|[n c] r IH]; simpl; [reflexivity|].
  destruct (dget n tbl); [rewrite list_remove_func|]; exact IH.
Qed.

Lemma remove_injector_app inj l :
  existsb (fun i => Nat.eqb (inj_id i) (inj_id inj)) l = false ->
  remove_injector inj (l ++ [inj])%list = Some l.
Proof.
  induction l as [|i r IH]; simpl.
  - rewrite Nat.eqb_refl. reflexivity.
  - intros H. apply orb_false_iff in H as [H1 H2]. rewrite H1, (IH H2). reflexivity.
Qed.

Lemma run_entries_spec ev d l g p :
  run_entries ev d l (mkPS g p) =
    (Ret tt, mkPS (add_events g (entries_events (directory p) ev d l)) p).
Proof.
  revert g; induction l as [|[i c] r IH]; intros g; simpl.
  - rewrite add_events_nil. reflexivity.
  - unfold bind at 1, emit, modify_glob; simpl.
    unfold bind at 1, get_plugin; simpl.
    destruct (cb_run c d) as [o|tr]; unfold bind, ret; simpl;
      [|unfold emit, modify_glob; simpl]; rewrite IH;
      unfold add_events; simpl; rewrite <- !app_assoc; reflexivity.
Qed.

Lemma call_listeners_spec ev d g p :
  call_listeners ev d (mkPS g p) =
    (Ret tt, mkPS (add_events g (entries_events (directory p) ev d (entries_of ev (listeners p)))) p).
Proof.
  unfold call_listeners, bind, get_plugin, entries_of; simpl.
  destruct (dget ev (listeners p)) as [l|].
  - apply run_entries_spec.
  - simpl. rewrite add_events_nil. reflexivity.
Qed.

End ExtraFacts.

(** ** Further properties of the daemon's code *)
Module Extras.
Import Manager Spec Examples ExtraFacts.

(** [Plugin.add_listeners] appends: under every name, the table afterwards
    holds the entries it held before followed by [(injector, cb)] for each
    callback the injector lists under that name; names in neither keep no
    entry. *)
Theorem add_listeners_appends inj ls g p n :
  dget n (listeners (plug (snd (add_listeners inj ls (mkPS g p))))) =
  if dmem n (listeners p) || existsb (String.eqb n) (map fst ls)
  then Some (entries_of n (listeners p) ++ map (fun cb => (Some inj, cb)) (lookup_all n ls))%list
  else None.
Proof. apply add_listeners_loop_get. Qed.

(** [Plugin.remove_listeners] never removes anything: [remove(cb)] compares
    the function with the [(injector, cb)] tuples of the table, so every
    call ends in the swallowed [ValueError] and the plugin is unchanged. *)
Theorem remove_listeners_noop ls s : remove_listeners ls s = (Ret tt, s).
Proof.
  destruct s as [g p]. unfold remove_listeners, modify_plugin; simpl.
  rewrite remove_listeners_loop_id, set_listeners_same. reflexivity.
Qed.

(** Loading an injector that is not attached and then unloading it gives the
    interface its injector list back, but the listener table keeps the
    handlers the load appended. *)
Theorem load_unload_injector_keeps_handlers inj g p :
  existsb (fun i => Nat.eqb (inj_id i) (inj_id inj)) (injectors p) = false ->
  let '(r1, ps1) := load_injector inj (mkPS g p) in
  let '(r2, ps2) := unload_injector inj ps1 in
  r1 = Ret tt /\ r2 = Ret tt /\ glob ps2 = g /\
  injectors (plug ps2) = injectors p /\
  listeners (plug ps2) = add_listeners_loop (Some inj) (inj_listeners inj) (listeners p).
Proof.
  intros H. unfold load_injector, bind at 1, get_plugin; simpl. rewrite H.
  unfold bind, inj_setup, add_listeners, modify_plugin; simpl.
  unfold unload_injector, try_catch, bind, get_plugin; simpl.
  rewrite remove_injector_app by exact H. simpl.
  unfold inj_teardown, remove_listeners, modify_plugin; simpl.
  rewrite remove_listeners_loop_id. repeat split.
Qed.

Lemma load_unload_injector_keeps_handlers_witness :
  existsb (fun i => Nat.eqb (inj_id i) (inj_id (Injector_new demo_class 5))) (injectors (Plugin_new "demo")) = false /\
  let '(r1, ps1) := load_injector (Injector_new demo_class 5) (mkPS (demo_glob demo_files demo_code) (Plugin_new "demo")) in
  let '(r2, ps2) := unload_injector (Injector_new demo_class 5) ps1 in
  r1 = Ret tt /\ r2 = Ret tt /\ glob ps2 = demo_glob demo_files demo_code /\
  injectors (plug ps2) = injectors (Plugin_new "demo") /\
  listeners (plug ps2) = add_listeners_loop (Some (Injector_new demo_class 5))
                           (inj_listeners (Injector_new demo_class 5)) (listeners (Plugin_new "demo")).
Proof.
  split; [reflexivity|].
  exact (load_unload_injector_keeps_handlers (Injector_new demo_class 5) (demo_glob demo_files demo_code)
           (Plugin_new "demo") eq_refl).
Defined.

(** [Plugin.call_listeners]: every entry under the event is awaited once, in
    order; one that raises schedules one error task and the loop goes on.
    The plugin itself, its listener table included, is unchanged. *)
Theorem call_listeners_each_once ev d g p :
  call_listeners ev d (mkPS g p) =
    (Ret tt, mkPS (add_events g (entries_events (directory p) ev d (entries_of ev (listeners p)))) p).
Proof. apply call_listeners_spec. Qed.

(** [Plugin.eject_listeners]: the [unload] entries are awaited once each, in
    order, and then the whole listener table is cleared. *)
Theorem eject_listeners_clears g p :
  eject_listeners (mkPS g p) =
    (Ret tt, mkPS (add_events g (entries_events (directory p) "unload" "" (entries_of "unload" (listeners p))))
                  (set_listeners p [])).
Proof.
  unfold eject_listeners, bind. rewrite call_listeners_spec. reflexivity.
Qed.

(** [PluginManager.handle_button] for a registered plugin: its [button]
    entries are awaited once each with the element, in order; the registry
    is left as it was. *)
Theorem handle_button_known k el p s :
  dget k (plugins s) = Some p ->
  handle_button PayloadTypeEnum_button k el s =
    (Ret tt, mkM (plugins s)
                 (add_events (mglob s) (entries_events (directory p) "button" el (entries_of "button" (listeners p))))).
Proof.
  intros H. unfold handle_button; simpl. unfold bind, get; simpl.
  unfold dmem; rewrite H; simpl. unfold run_plugin; rewrite H.
  rewrite call_listeners_spec; cbn [plug glob]. rewrite (ParseFacts.dset_same _ _ _ H). reflexivity.
Qed.

Lemma handle_button_known_witness :
  let s := snd (load_plugin loads_demo "f1" "demo" None (mkM [] (demo_glob demo_files demo_code))) in
  exists p, dget "f1" (plugins s) = Some p /\
  handle_button PayloadTypeEnum_button "f1" "btn" s =
    (Ret tt, mkM (plugins s)
                 (add_events (mglob s) (entries_events (directory p) "button" "btn" (entries_of "button" (listeners p))))).
Proof.
  intros s. eexists. split; [vm_compute; reflexivity|].
  apply handle_button_known. vm_compute; reflexivity.
Defined.

End Extras.

(** ** Facts about the pending-call table *)
Module RpcFacts.
Import Manager Spec ExtraFacts.

Lemma inbound_ack_loop_other n b st :
  ~ In n (map fst b) ->
  dget n (Rpc.nonces (snd (Rpc.inbound_ack_loop b st))) = dget n (Rpc.nonces st) /\
  dget n (Rpc.futures (snd (Rpc.inbound_ack_loop b st))) = dget n (Rpc.futures st).
Proof.
  revert st; induction b as [|[m r] rest IH]; intros st Hn; simpl in *; [split; reflexivity|].
  assert (Hnm : String.eqb n m = false)
    by (apply String.eqb_neq; intros ->; apply Hn; left; reflexivity).
  assert (Hr : ~ In n (map fst rest)) by (intros H1; apply Hn; right; exact H1).
  destruct (dmem m (Rpc.nonces st)).
  - unfold Rpc.set_result; simpl.
    destruct (dget m (Rpc.futures st)) as [[| |]|]; simpl;
      try (rewrite dget_ddel_other by exact Hnm; split; reflexivity).
    match goal with |- context [Rpc.inbound_ack_loop rest ?s] => destruct (IH s Hr) as [H1 H2] end.
    simpl in H1, H2.
    rewrite H1, H2, dget_ddel_other, dget_dset, Hnm by exact Hnm. split; reflexivity.
  - match goal with |- context [Rpc.inbound_ack_loop rest ?s] => destruct (IH s Hr) as [H1 H2] end.
    simpl in H1, H2. split; assumption.
Qed.

Lemma inbound_ack_loop_app a b st :
  Rpc.inbound_ack_loop (a ++ b) st =
  match Rpc.inbound_ack_loop a st with
  | (Ret _, s) => Rpc.inbound_ack_loop b s
  | (Raise e, s) => (Raise e, s)
  end.
Proof.
  revert st; induction a as [|[m r] rest IH]; intros st; simpl; [reflexivity|].
  destruct (dmem m (Rpc.nonces st)); [|apply IH].
  destruct (Rpc.set_result m r _); [apply IH|reflexivity].
Qed.

Lemma deliver_acks_other n acks st :
  (forall b, In b acks -> ~ In n (map fst b)) ->
  dget n (Rpc.nonces (Rpc.deliver_acks acks st)) = dget n (Rpc.nonces st) /\
  dget n (Rpc.futures (Rpc.deliver_acks acks st)) = dget n (Rpc.futures st).
Proof.
  revert st; induction acks as [|b rest IH]; intros st H; simpl; [split; reflexivity|].
  assert (Hr : forall b', In b' rest -> ~ In n (map fst b')) by (intros b' Hb; apply H; right; exact Hb).
  destruct (inbound_ack_loop_other n b st (H b (or_introl eq_refl))) as [H1 H2].
  destruct (IH (snd (Rpc.inbound_ack_loop b st)) Hr) as [H3 H4]. rewrite H3, H4, H1, H2. split; reflexivity.
Qed.

Lemma rpc_wf_issue n p st : rpc_wf st -> rpc_wf (Rpc.put_request_issue n p st).
Proof.
  intros [Hd Hf]. unfold Rpc.put_request_issue. split; cbn [Rpc.nonces Rpc.futures].
  - apply NoDup_dset; exact Hd.
  - intros m Hm. unfold dmem in Hm. rewrite dget_dset in Hm. rewrite dget_dset.
    destruct (String.eqb m n); [reflexivity|]. apply Hf. exact Hm.
Qed.

Lemma rpc_wf_ack b st :
  rpc_wf st ->
  exists st', Rpc.inbound_ack_loop b st = (Ret tt, st') /\ rpc_wf st' /\
    (forall n, In n (map fst b) -> dmem n (Rpc.nonces st') = false) /\
    (forall n, ~ In n (map fst b) -> dmem n (Rpc.nonces st') = dmem n (Rpc.nonces st)).
Proof.
  revert st; induction b as [|[m r] rest IH]; intros st Hw; simpl.
  - exists st. split; [reflexivity|split; [exact Hw|split; [intros n []|intros; reflexivity]]].
  - destruct Hw as [Hd Hf].
    destruct (dmem m (Rpc.nonces st)) eqn:Em.
    + unfold Rpc.set_result; simpl. rewrite (Hf m Em).
      set (st1 := Rpc.mkHTTP (ddel m (Rpc.nonces st)) (dset m (Rpc.FutDone r) (Rpc.futures st))
                             (Rpc.waiting_for_poll st) (Rpc.warnings st)).
      assert (Hw1 : rpc_wf st1).
      { split; simpl; [apply NoDup_ddel; exact Hd|].
        intros k Hk. unfold dmem in Hk.
        destruct (String.eqb k m) eqn:Ekm.
        - apply String.eqb_eq in Ekm; subst. rewrite dget_ddel_same in Hk by exact Hd. discriminate.
        - rewrite dget_ddel_other in Hk by exact Ekm. rewrite dget_dset, Ekm. apply Hf. exact Hk. }
      destruct (IH st1 Hw1) as [st' [E [Hw' [Hin Hout]]]].
      exists st'. split; [exact E|split; [exact Hw'|split]].
      * intros n [->|Hn]; [|apply Hin; exact Hn].
        destruct (in_dec String.string_dec n (map fst rest)) as [Hn|Hn]; [apply Hin; exact Hn|].
        rewrite (Hout n Hn). unfold dmem; simpl. rewrite dget_ddel_same by exact Hd. reflexivity.
      * intros n Hn. assert (Enm : String.eqb n m = false)
          by (apply String.eqb_neq; intros ->; apply Hn; left; reflexivity).
        rewrite Hout by (intros H1; apply Hn; right; exact H1).
        unfold dmem; simpl. rewrite dget_ddel_other by exact Enm. reflexivity.
    + set (st1 := Rpc.mkHTTP (Rpc.nonces st) (Rpc.futures st) (Rpc.waiting_for_poll st)
                    (Rpc.warnings st ++ ["Received response for unknown nonce '" ++ m ++ "'"])).
      destruct (IH st1 (conj Hd Hf)) as [st' [E [Hw' [Hin Hout]]]].
      exists st'. split; [exact E|split; [exact Hw'|split]].
      * intros n [->|Hn]; [|apply Hin; exact Hn].
        destruct (in_dec String.string_dec n (map fst rest)) as [Hn|Hn]; [apply Hin; exact Hn|].
        rewrite (Hout n Hn). exact Em.
      * intros n Hn. apply Hout. intros H1; apply Hn; right; exact H1.
Qed.

Lemma waiting_issue_all issued st :
  Rpc.waiting_for_poll (fold_left (fun st np => Rpc.put_request_issue (fst np) (snd np) st) issued st) =
  (Rpc.waiting_for_poll st ++ map (fun np => (Some (fst np), snd np)) issued)%list.
Proof.
  revert st; induction issued as [|[n p] r IH]; intros st; simpl; [rewrite app_nil_r; reflexivity|].
  rewrite IH. simpl. rewrite <- app_assoc. reflexivity.
Qed.

End RpcFacts.

Module Extras2.
Import Manager Spec Examples ExtraFacts RpcFacts.

(** [put_request] with a fresh nonce whose acknowledgement arrives: the call
    returns the acknowledged response, the pending-call table is back to
    what it was, and the payload was queued for the bot, tagged with the
    nonce, after everything queued before. *)
Theorem put_request_ack_roundtrip st n p v oc :
  dget n (Rpc.nonces st) = None ->
  let '(r, st') := Rpc.put_request n p [[(n, v)]] oc st in
  r = Ret (Some v) /\ Rpc.nonces st' = Rpc.nonces st /\
  Rpc.waiting_for_poll st' = (Rpc.waiting_for_poll st ++ [(Some n, p)])%list.
Proof.
  intros H.
  assert (E : Rpc.deliver_acks [[(n, v)]] (Rpc.put_request_issue n p st) =
    Rpc.mkHTTP (ddel n (dset n tt (Rpc.nonces st)))
               (dset n (Rpc.FutDone v) (dset n Rpc.FutPending (Rpc.futures st)))
               (Rpc.waiting_for_poll st ++ [(Some n, p)]) (Rpc.warnings st)).
  { unfold Rpc.put_request_issue. cbn [Rpc.deliver_acks Rpc.inbound_ack_loop Rpc.nonces].
    unfold dmem. rewrite dget_dset, String.eqb_refl.
    unfold Rpc.set_result. cbn [Rpc.futures]. rewrite dget_dset, String.eqb_refl. reflexivity. }
  unfold Rpc.put_request. rewrite E.
  unfold Rpc.wait_for. cbn [Rpc.futures]. rewrite dget_dset, String.eqb_refl.
  cbn [Rpc.nonces Rpc.waiting_for_poll]. rewrite ddel_dset_fresh by exact H. repeat split.
Qed.

Lemma put_request_ack_roundtrip_witness :
  dget "n1" (Rpc.nonces Rpc.empty_http) = None /\
  let '(r, st') := Rpc.put_request "n1" "GetPoints" [[("n1", "42")]] false Rpc.empty_http in
  r = Ret (Some "42") /\ Rpc.nonces st' = Rpc.nonces Rpc.empty_http /\
  Rpc.waiting_for_poll st' = (Rpc.waiting_for_poll Rpc.empty_http ++ [(Some "n1", "GetPoints")])%list.
Proof. split; [reflexivity|]. exact (put_request_ack_roundtrip Rpc.empty_http "n1" "GetPoints" "42" false eq_refl). Defined.

(** When no acknowledgement for the call's nonce arrives, [put_request]
    raises [TimeoutError] and the nonce stays in the pending-call table with
    its future cancelled.  Afterwards, whatever batches not mentioning the
    nonce are handled first, every [inbound_ack] batch that contains the
    nonce raises [InvalidStateError]: [set_result] on the cancelled future
    raises when the loop reaches the nonce, if no earlier item raised. *)
Theorem put_request_timeout_poisons_acks st n p acks :
  (forall b, In b acks -> ~ In n (map fst b)) ->
  let '(r, st') := Rpc.put_request n p acks false st in
  r = Raise TimeoutError /\ dmem n (Rpc.nonces st') = true /\
  forall later pre v post,
    (forall b, In b later -> ~ In n (map fst b)) -> ~ In n (map fst pre) ->
    fst (Rpc.inbound_ack_loop (pre ++ (n, v) :: post) (Rpc.deliver_acks later st')) = Raise InvalidStateError.
Proof.
  intros H. unfold Rpc.put_request.
  destruct (deliver_acks_other n acks (Rpc.put_request_issue n p st) H) as [Hn Hf].
  simpl in Hn, Hf. rewrite dget_dset, String.eqb_refl in Hn. rewrite dget_dset, String.eqb_refl in Hf.
  remember (Rpc.deliver_acks acks (Rpc.put_request_issue n p st)) as st1 eqn:E1.
  unfold Rpc.wait_for. rewrite Hf.
  split; [reflexivity|]. cbn [Rpc.nonces]. unfold dmem; rewrite Hn. split; [reflexivity|].
  intros later pre v post Hl Hp.
  set (st2 := Rpc.mkHTTP (Rpc.nonces st1) (dset n Rpc.FutCancelled (Rpc.futures st1))
                         (Rpc.waiting_for_poll st1) (Rpc.warnings st1)).
  destruct (deliver_acks_other n later st2 Hl) as [Hn2 Hf2].
  cbn [st2 Rpc.nonces Rpc.futures] in Hn2, Hf2. rewrite Hn in Hn2. rewrite dget_dset, String.eqb_refl in Hf2.
  rewrite inbound_ack_loop_app.
  destruct (inbound_ack_loop_other n pre (Rpc.deliver_acks later st2) Hp) as [Hn3 Hf3].
  destruct (Rpc.inbound_ack_loop pre (Rpc.deliver_acks later st2)) as [[u|e] s3] eqn:E3.
  - cbn [snd] in Hn3, Hf3. rewrite Hn2 in Hn3. rewrite Hf2 in Hf3.
    cbn [Rpc.inbound_ack_loop]. unfold dmem; rewrite Hn3.
    unfold Rpc.set_result. cbn [Rpc.futures]. rewrite Hf3. reflexivity.
  - cbn [fst].
    assert (Hse : forall l s s', Rpc.inbound_ack_loop l s = (Raise e, s') -> e = InvalidStateError).
    { induction l as [|[m r] rest IH]; intros s s' Hl'; simpl in Hl'; [discriminate|].
      destruct (dmem m (Rpc.nonces s)); [|exact (IH _ _ Hl')].
      unfold Rpc.set_result in Hl'. cbn [Rpc.futures] in Hl'.
      destruct (dget m (Rpc.futures s)) as [[| |]|];
        first [exact (IH _ _ Hl') | injection Hl' as <- _; reflexivity]. }
    rewrite (Hse _ _ _ E3). reflexivity.
Qed.

Lemma put_request_timeout_poisons_acks_witness :
  (forall b, In b [[("other", "1")]] -> ~ In "n1" (map fst b)) /\
  let '(r, st') := Rpc.put_request "n1" "GetPoints" [[("other", "1")]] false Rpc.empty_http in
  r = Raise TimeoutError /\ dmem "n1" (Rpc.nonces st') = true /\
  forall later pre v post,
    (forall b, In b later -> ~ In "n1" (map fst b)) -> ~ In "n1" (map fst pre) ->
    fst (Rpc.inbound_ack_loop (pre ++ ("n1", v) :: post) (Rpc.deliver_acks later st')) = Raise InvalidStateError.
Proof.
  assert (H : forall b, In b [[("other", "1")]] -> ~ In "n1" (map fst b)).
  { intros b [<-|[]]; simpl; intros [H|[]]; discriminate. }
  split; [exact H|]. exact (put_request_timeout_poisons_acks Rpc.empty_http "n1" "GetPoints" _ H).
Defined.

(** Issuing calls keeps the pending-call table well formed (every pending
    nonce has a pending future), and on a well-formed table [inbound_ack]
    never raises: afterwards no nonce of the batch is pending, the other
    pending nonces are untouched, and the table is still well formed. *)
Theorem inbound_ack_wf (b : list (string * string)) st :
  rpc_wf st ->
  (forall n p, rpc_wf (Rpc.put_request_issue n p st)) /\
  exists st', Rpc.inbound_ack_loop b st = (Ret tt, st') /\ rpc_wf st' /\
    (forall n, In n (map fst b) -> dmem n (Rpc.nonces st') = false) /\
    (forall n, ~ In n (map fst b) -> dmem n (Rpc.nonces st') = dmem n (Rpc.nonces st)).
Proof.
  intros Hw. split; [intros n p; apply rpc_wf_issue; exact Hw|]. apply rpc_wf_ack; exact Hw.
Qed.

Lemma inbound_ack_wf_witness :
  let st := Rpc.put_request_issue "n1" "GetPoints" Rpc.empty_http in
  rpc_wf st /\
  ((forall n p, rpc_wf (Rpc.put_request_issue n p st)) /\
   exists st', Rpc.inbound_ack_loop [("n1", "42"); ("n1", "43")] st = (Ret tt, st') /\ rpc_wf st' /\
    (forall n, In n (map fst [("n1", "42"); ("n1", "43")]) -> dmem n (Rpc.nonces st') = false) /\
    (forall n, ~ In n (map fst [("n1", "42"); ("n1", "43")]) -> dmem n (Rpc.nonces st') = dmem n (Rpc.nonces st))).
Proof.
  intros st. assert (Hw : rpc_wf st).
  { split; [simpl; repeat constructor; intros []|].
    intros n Hn. unfold dmem in Hn; simpl in Hn |- *. destruct (String.eqb n "n1"); [reflexivity|discriminate]. }
  split; [exact Hw|]. exact (inbound_ack_wf _ st Hw).
Defined.

(** An authorized [/outbound] poll answers every queued entry, the payload
    of each call issued since in issue order, and empties the queue: the next
    poll answers nothing.  The pending-call table is not touched. *)
Theorem outbound_delivers_in_order hst req st issued :
  Http.bad_auth hst req = false ->
  let st1 := fold_left (fun st np => Rpc.put_request_issue (fst np) (snd np) st) issued st in
  fst (Routes.outbound hst req st1) =
    inr (Rpc.waiting_for_poll st ++ map (fun np => (Some (fst np), snd np)) issued)%list /\
  fst (Routes.outbound hst req (snd (Routes.outbound hst req st1))) = inr [] /\
  Rpc.nonces (snd (Routes.outbound hst req st1)) = Rpc.nonces st1.
Proof.
  intros H st1. unfold Routes.outbound. rewrite H. cbn [fst snd Rpc.waiting_for_poll Rpc.nonces].
  unfold st1. rewrite waiting_issue_all. repeat split.
Qed.

Lemma outbound_delivers_in_order_witness :
  Http.bad_auth handshaken (authorized "secret") = false /\
  let st1 := fold_left (fun st np => Rpc.put_request_issue (fst np) (snd np) st)
               [("n1", "GetPoints"); ("n2", "IsLive")] Rpc.empty_http in
  fst (Routes.outbound handshaken (authorized "secret") st1) =
    inr (Rpc.waiting_for_poll Rpc.empty_http ++
         map (fun np => (Some (fst np), snd np)) [("n1", "GetPoints"); ("n2", "IsLive")])%list /\
  fst (Routes.outbound handshaken (authorized "secret") (snd (Routes.outbound handshaken (authorized "secret") st1))) = inr [] /\
  Rpc.nonces (snd (Routes.outbound handshaken (authorized "secret") st1)) = Rpc.nonces st1.
Proof.
  split; [reflexivity|].
  exact (outbound_delivers_in_order handshaken (authorized "secret") Rpc.empty_http _ eq_refl).
Defined.

(** Before a secret is set, every route that checks the bearer header
    answers 401, whatever the request carries. *)
Theorem guarded_routes_closed_before_auth st req r :
  Http.auth st = None -> header_guarded r = true ->
  exists resp, Http.route_guard r st req = Some resp /\ Http.status resp = 401.
Proof.
  intros Ha Hg.
  assert (Hb : Http.bad_auth st req = true).
  { unfold Http.bad_auth. rewrite Ha. destruct (dget "Authorization" (Http.headers req)); apply orb_true_r. }
  destruct r; try discriminate Hg; cbn [Http.route_guard]; rewrite Hb; eexists; split; reflexivity.
Qed.

Lemma guarded_routes_closed_before_auth_witness :
  Http.auth http_initial = None /\ header_guarded Http.RInbound = true /\
  exists resp, Http.route_guard Http.RInbound http_initial (authorized "") = Some resp /\ Http.status resp = 401.
Proof.
  split; [reflexivity|split; [reflexivity|]].
  exact (guarded_routes_closed_before_auth http_initial (authorized "") Http.RInbound eq_refl eq_refl).
Defined.

(** A [/pingpong] with the right header and a wrong challenge answers 400
    and sets [ClientServerMismatch], keeping the secret and the challenge;
    a later [/pingpong] with the right challenge still succeeds. *)
Theorem pingpong_mismatch_recovers st C ch c req1 req2 :
  Http.auth st = Some C -> Http.challenge st = Some ch ->
  dget "Authorization" (Http.headers req1) = Some C -> dget "Authorization" (Http.headers req2) = Some C ->
  dget "challenge" (Http.body req1) = Some c -> c <> ch -> dget "challenge" (Http.body req2) = Some ch ->
  let '(r1, st1) := Http.route_pingpong st req1 in
  r1 = Ret (Http.mkResp 400 "Failed pingpong") /\
  Http.auth_state st1 = Some Http.ClientServerMismatch /\
  Http.auth st1 = Http.auth st /\ Http.challenge st1 = Http.challenge st /\
  Http.route_pingpong st1 req2 =
    (Ret (Http.mkResp 204 ""), Http.mkH (Http.auth st) (Http.challenge st) (Some Http.AuthOK) (Http.kill_code st)).
Proof.
  intros Ha Hc H1 H2 B1 Hne B2.
  destruct (String.eqb c ch) eqn:E; [apply String.eqb_eq in E; contradiction|].
  assert (E1 : Http.route_pingpong st req1 =
    (Ret (Http.mkResp 400 "Failed pingpong"),
     Http.mkH (Http.auth st) (Http.challenge st) (Some Http.ClientServerMismatch) (Http.kill_code st))).
  { unfold Http.route_pingpong.
    rewrite (HttpFacts.bad_auth_secret st req1 C Ha), H1, String.eqb_refl. cbn [negb].
    rewrite Hc, B1, E. reflexivity. }
  rewrite E1. split; [reflexivity|split; [reflexivity|split; [reflexivity|split; [reflexivity|]]]].
  unfold Http.route_pingpong.
  rewrite (HttpFacts.bad_auth_secret
    (Http.mkH (Http.auth st) (Http.challenge st) (Some Http.ClientServerMismatch) (Http.kill_code st))
    req2 C Ha), H2, String.eqb_refl. cbn [negb Http.challenge].
  rewrite Hc, B2, String.eqb_refl. reflexivity.
Qed.

Lemma pingpong_mismatch_recovers_witness :
  let st := Http.mkH (Some "secret") (Some "tok") (Some Http.PendingPingPong) None in
  let req1 := Http.mkReq [("Authorization", "secret")] [] [("challenge", "bad")] in
  let req2 := Http.mkReq [("Authorization", "secret")] [] [("challenge", "tok")] in
  "bad" <> "tok" /\
  let '(r1, st1) := Http.route_pingpong st req1 in
  r1 = Ret (Http.mkResp 400 "Failed pingpong") /\
  Http.auth_state st1 = Some Http.ClientServerMismatch /\
  Http.auth st1 = Http.auth st /\ Http.challenge st1 = Http.challenge st /\
  Http.route_pingpong st1 req2 =
    (Ret (Http.mkResp 204 ""), Http.mkH (Http.auth st) (Http.challenge st) (Some Http.AuthOK) (Http.kill_code st)).
Proof.
  intros st req1 req2. assert (Hne : "bad" <> "tok") by discriminate.
  split; [exact Hne|].
  exact (pingpong_mismatch_recovers st "secret" "tok" "bad" req1 req2 eq_refl eq_refl eq_refl eq_refl eq_refl Hne eq_refl).
Defined.

(** Once a non-empty secret is set, no sequence of [/auth] and [/pingpong]
    requests changes the secret or the challenge. *)
Theorem secret_stable rs st :
  truthy (Http.auth st) = true ->
  Http.auth (run_auth_routes rs st) = Http.auth st /\
  Http.challenge (run_auth_routes rs st) = Http.challenge st.
Proof.
  unfold run_auth_routes. revert st; induction rs as [|r rs IH]; intros st Ht; simpl; [split; reflexivity|].
  assert (Hs : Http.auth (auth_route_step st r) = Http.auth st /\
               Http.challenge (auth_route_step st r) = Http.challenge st).
  { destruct r as [t req|req]; simpl.
    - unfold Http.route_auth. rewrite Ht. split; reflexivity.
    - unfold Http.route_pingpong.
      destruct (Http.bad_auth st req); [split; reflexivity|].
      destruct (Http.challenge st) eqn:Ec; [|simpl; rewrite Ec; split; reflexivity].
      destruct (dget "challenge" (Http.body req)); [|simpl; rewrite Ec; split; reflexivity].
      destruct (String.eqb _ _); split; reflexivity. }
  destruct Hs as [H1 H2]. rewrite <- H1 in Ht. destruct (IH _ Ht) as [H3 H4].
  rewrite H3, H4, H1, H2. split; reflexivity.
Qed.

Lemma secret_stable_witness :
  let rs := [AuthPost "tok2" (Http.mkReq [] [] [("code", "evil")]);
             PingPost (Http.mkReq [("Authorization", "secret")] [] [("challenge", "x")])] in
  truthy (Http.auth handshaken) = true /\
  Http.auth (run_auth_routes rs handshaken) = Http.auth handshaken /\
  Http.challenge (run_auth_routes rs handshaken) = Http.challenge handshaken.
Proof.
  intros rs. split; [reflexivity|]. exact (secret_stable rs handshaken eq_refl).
Defined.

(** An [/auth] request whose code is the empty string is accepted and
    stored, but the empty secret is falsy: it does not lock [/auth], and a
    later [/auth] replaces it with its own code and a new challenge. *)
Theorem empty_code_does_not_lock t1 t2 C st req1 req2 :
  truthy (Http.auth st) = false ->
  dget "code" (Http.body req1) = Some "" -> dget "code" (Http.body req2) = Some C ->
  let st1 := snd (Http.route_auth t1 st req1) in
  Http.auth st1 = Some "" /\
  Http.route_auth t2 st1 req2 =
    (Ret (Http.mkResp 200 t2), Http.mkH (Some C) (Some t2) (Some Http.PendingPingPong) (Http.kill_code st)).
Proof.
  intros Ht H1 H2 st1.
  assert (E1 : st1 = Http.mkH (Some "") (Some t1) (Some Http.PendingPingPong) (Http.kill_code st)).
  { unfold st1, Http.route_auth. rewrite Ht, H1. reflexivity. }
  rewrite E1. split; [reflexivity|]. unfold Http.route_auth. cbn [truthy Http.auth].
  rewrite H2. reflexivity.
Qed.

Lemma empty_code_does_not_lock_witness :
  truthy (Http.auth http_initial) = false /\
  let st1 := snd (Http.route_auth "t1" http_initial (Http.mkReq [] [] [("code", "")])) in
  Http.auth st1 = Some "" /\
  Http.route_auth "t2" st1 (Http.mkReq [] [] [("code", "secret")]) =
    (Ret (Http.mkResp 200 "t2"), Http.mkH (Some "secret") (Some "t2") (Some Http.PendingPingPong) (Http.kill_code http_initial)).
Proof.
  split; [reflexivity|].
  exact (empty_code_does_not_lock "t1" "t2" "secret" http_initial
           (Http.mkReq [] [] [("code", "")]) (Http.mkReq [] [] [("code", "secret")]) eq_refl eq_refl eq_refl).
Defined.

(** Every API method of [Interface] ([get_username], [add_points],
    [add_points_all], [remove_points], [remove_points_all]) awaits an
    [api_*] attribute of the [HTTPHandler], which defines none of them:
    each call raises [AttributeError]. *)
Theorem interface_api_missing m a :
  In (m, a) Routes.Interface_api ->
  Routes.call_interface_api m =
    Some (Routes.AttributeError ("'HTTPHandler' object has no attribute '" ++ a ++ "'")).
Proof.
  intros H. repeat (destruct H as [H|H]; [injection H as <- <-; vm_compute; reflexivity|]). destruct H.
Qed.

Lemma interface_api_missing_witness :
  In ("get_username", "api_get_username") Routes.Interface_api /\
  Routes.call_interface_api "get_username" =
    Some (Routes.AttributeError ("'HTTPHandler' object has no attribute '" ++ "api_get_username" ++ "'")).
Proof.
  assert (H : In ("get_username", "api_get_username") Routes.Interface_api) by (left; reflexivity).
  split; [exact H|]. exact (interface_api_missing _ _ H).
Defined.

End Extras2.

(** ** What the route handlers can return *)
Module RouteFacts.
Import Manager Spec.

Lemma only_returns_ret {S A} (P : A -> Prop) a : P a -> only_returns (S := S) P (ret a).
Proof. intros H s. exact H. Qed.

Lemma only_returns_raise {S A} (P : A -> Prop) e : only_returns (S := S) P (raise e).
Proof. intros s. exact I. Qed.

Lemma only_returns_bind {S A B} (P : B -> Prop) (m : ST S A) (k : A -> ST S B) :
  (forall a, only_returns P (k a)) -> only_returns P (bind m k).
Proof.
  intros H s. unfold bind. destruct (m s) as [[a|e] s']; [apply H|exact I].
Qed.

Lemma only_returns_try_catch {S A} (P : A -> Prop) (m : ST S A) h :
  only_returns P m -> (forall e, only_returns P (h e)) -> only_returns P (try_catch m h).
Proof.
  intros Hm Hh s. unfold try_catch. specialize (Hm s).
  destruct (m s) as [[a|e] s']; [exact Hm|apply Hh].
Qed.

Lemma only_returns_run_plugin {A} (P : A -> Prop) k (m : ST PS A) :
  only_returns P m -> only_returns P (run_plugin k m).
Proof.
  intros Hm s. unfold run_plugin. destruct (dget k (plugins s)) as [p|]; [|exact I].
  specialize (Hm (mkPS (mglob s) p)). destruct (m (mkPS (mglob s) p)) as [r ps]. exact Hm.
Qed.

(** [reload_plugin] reports failures only: its result is never [(True, _)]. *)
Lemma reload_plugin_not_ok sid :
  only_returns (fun r => forall reason, r <> Some (true, reason)) (reload_plugin sid).
Proof.
  unfold reload_plugin. apply only_returns_bind; intros st.
  destruct (negb (dmem sid (plugins st))); [apply only_returns_ret; discriminate|].
  apply only_returns_run_plugin. apply only_returns_bind; intros p. apply only_returns_bind; intros u.
  apply only_returns_try_catch.
  - apply only_returns_bind; intros v. apply only_returns_ret; discriminate.
  - intros e; destruct e; first [apply only_returns_raise | apply only_returns_ret; discriminate].
Qed.

End RouteFacts.

Module Extras3.
Import Manager Spec Examples RouteFacts.

(** An authorized [/inbound] reload never answers 204: when
    [reload_plugin] returns [None] (the reload succeeded) the unpacking
    [ok, reason = ...] raises [TypeError]; otherwise the reply is the 203
    error with the reason, or [reload_plugin]'s own exception. *)
Theorem inbound_reload_never_ok hst req sid ms :
  Http.bad_auth hst req = false ->
  match fst (reload_plugin sid ms) with
  | Ret None =>
      Routes.inbound_reload_plugin hst req sid ms =
        (Raise (TypeError "cannot unpack non-iterable NoneType object"), snd (reload_plugin sid ms))
  | Ret (Some (ok, reason)) =>
      ok = false /\
      Routes.inbound_reload_plugin hst req sid ms =
        (Ret (Routes.RJson 203 [("error", Some reason)]), snd (reload_plugin sid ms))
  | Raise e => Routes.inbound_reload_plugin hst req sid ms = (Raise e, snd (reload_plugin sid ms))
  end.
Proof.
  intros Hb. pose proof (reload_plugin_not_ok sid ms) as Hr.
  unfold Routes.inbound_reload_plugin. rewrite Hb. unfold bind.
  destruct (reload_plugin sid ms) as [[r|e] ms'] eqn:E; cbn [fst snd] in Hr |- *; [|reflexivity].
  destruct r as [[[|] reason]|]; [exfalso; exact (Hr reason eq_refl)|split; reflexivity|reflexivity].
Qed.

Lemma inbound_reload_never_ok_witness :
  let ms := snd (load_plugin loads_demo "f1" "demo" None (mkM [] (demo_glob demo_files demo_code))) in
  Http.bad_auth handshaken (authorized "secret") = false /\
  match fst (reload_plugin "f1" ms) with
  | Ret None =>
      Routes.inbound_reload_plugin handshaken (authorized "secret") "f1" ms =
        (Raise (TypeError "cannot unpack non-iterable NoneType object"), snd (reload_plugin "f1" ms))
  | Ret (Some (ok, reason)) =>
      ok = false /\
      Routes.inbound_reload_plugin handshaken (authorized "secret") "f1" ms =
        (Ret (Routes.RJson 203 [("error", Some reason)]), snd (reload_plugin "f1" ms))
  | Raise e => Routes.inbound_reload_plugin handshaken (authorized "secret") "f1" ms = (Raise e, snd (reload_plugin "f1" ms))
  end.
Proof.
  intros ms. split; [reflexivity|]. exact (inbound_reload_never_ok handshaken (authorized "secret") "f1" ms eq_refl).
Defined.

(** An authorized [/inbound] parse always answers 200 with a text: for a
    payload that is not of the parse type, [handle_parse] raises
    [TypeError] and the text is the input string unchanged; for a parse
    payload it is what [handle_parse] returns, with its state. *)
Theorem inbound_parse_always_200 hst req t s ms :
  Http.bad_auth hst req = false ->
  (t <> PayloadTypeEnum_parse ->
   Routes.inbound_parse hst req t s ms = (Ret (Routes.RJson 200 [("text", Some s)]), ms)) /\
  (t = PayloadTypeEnum_parse ->
   exists r ms', handle_parse t s ms = (Ret r, ms') /\
     Routes.inbound_parse hst req t s ms = (Ret (Routes.RJson 200 [("text", Some r)]), ms')).
Proof.
  intros Hb. unfold Routes.inbound_parse. rewrite Hb. split.
  - intros Ht. unfold bind, try_catch, handle_parse.
    destruct (Nat.eqb t PayloadTypeEnum_parse) eqn:E; [apply Nat.eqb_eq in E; contradiction|].
    reflexivity.
  - intros ->. destruct ms as [ps g].
    destruct (ParseFacts.parse_pass_spec (map fst ps) ps g s) as [g1 H1].
    set (s1 := fold_left (fun acc k => match dget k ps with Some p => parse_step p acc | None => acc end)
                 (map fst ps) s) in H1.
    destruct (ParseFacts.parse_pass_spec (map fst ps) ps g1 s1) as [g2 H2].
    set (s2 := fold_left (fun acc k => match dget k ps with Some p => parse_step p acc | None => acc end)
                 (map fst ps) s1) in H2.
    assert (Hh : handle_parse PayloadTypeEnum_parse s (mkM ps g) = (Ret s2, mkM ps g2)).
    { unfold handle_parse. rewrite Nat.eqb_refl. cbn [negb]. unfold bind at 1, get.
      cbn [plugins]. unfold bind at 1. rewrite H1. unfold bind, get. cbn [plugins]. exact H2. }
    exists s2, (mkM ps g2). split; [exact Hh|]. unfold bind at 1, try_catch. rewrite Hh. reflexivity.
Qed.

Lemma inbound_parse_always_200_witness :
  let ms := snd (load_plugin loads_demo "f1" "demo" None (mkM [] (demo_glob demo_files demo_code))) in
  Http.bad_auth handshaken (authorized "secret") = false /\
  ((PayloadTypeEnum_button <> PayloadTypeEnum_parse ->
    Routes.inbound_parse handshaken (authorized "secret") PayloadTypeEnum_button "hi" ms =
      (Ret (Routes.RJson 200 [("text", Some "hi")]), ms)) /\
   (PayloadTypeEnum_button = PayloadTypeEnum_parse ->
    exists r ms', handle_parse PayloadTypeEnum_button "hi" ms = (Ret r, ms') /\
      Routes.inbound_parse handshaken (authorized "secret") PayloadTypeEnum_button "hi" ms =
        (Ret (Routes.RJson 200 [("text", Some r)]), ms'))).
Proof.
  intros ms. split; [reflexivity|].
  exact (inbound_parse_always_200 handshaken (authorized "secret") PayloadTypeEnum_button "hi" ms eq_refl).
Defined.

End Extras3.

Module Extras4.
Import Manager Spec Examples.

(** An authorized [/inbound] load request is refused with a 203 and no id,
    leaving the manager untouched, when the non-empty [plugin_id] it names
    is already registered, or else when the directory does not exist. *)
Theorem inbound_load_plugin_rejects hst req loads fresh dir pid ms :
  Http.bad_auth hst req = false ->
  (forall i, pid = Some i -> i <> "" -> dmem i (plugins ms) = true ->
   Routes.inbound_load_plugin hst req loads fresh dir pid ms =
     (Ret (Routes.RJson 203 [("id", None); ("error", Some "Plugin is already loaded")]), ms)) /\
  ((forall i, pid = Some i -> i <> "" -> dmem i (plugins ms) = false) ->
   dmem dir (fs (mglob ms)) = false ->
   Routes.inbound_load_plugin hst req loads fresh dir pid ms =
     (Ret (Routes.RJson 203 [("id", None); ("error", Some "The given directory does not exist")]), ms)).
Proof.
  intros Hb. unfold Routes.inbound_load_plugin. rewrite Hb. split.
  - intros i -> Hne Hm. unfold load_plugin, bind at 2, get, bind at 1.
    assert (Ht : truthy (Some i) = true)
      by (unfold truthy; rewrite (proj2 (String.eqb_neq i "") Hne); reflexivity).
    rewrite Ht, Hm. reflexivity.
  - intros Hp Hd. unfold load_plugin, bind at 2, get, bind at 1.
    assert (Hf : truthy pid && match pid with Some i => dmem i (plugins ms) | None => false end = false).
    { destruct pid as [i|]; [|reflexivity].
      destruct (String.eqb i "") eqn:E; [unfold truthy; rewrite E; reflexivity|].
      rewrite (Hp i eq_refl (proj1 (String.eqb_neq i "") E)). apply andb_false_r. }
    rewrite Hf, Hd. reflexivity.
Qed.

Lemma inbound_load_plugin_rejects_witness :
  let ms := snd (load_plugin loads_demo "f1" "demo" None (mkM [] (demo_glob demo_files demo_code))) in
  Http.bad_auth handshaken (authorized "secret") = false /\
  ((forall i, Some "f1" = Some i -> i <> "" -> dmem i (plugins ms) = true ->
    Routes.inbound_load_plugin handshaken (authorized "secret") loads_demo "f2" "demo" (Some "f1") ms =
      (Ret (Routes.RJson 203 [("id", None); ("error", Some "Plugin is already loaded")]), ms)) /\
   ((forall i, Some "f1" = Some i -> i <> "" -> dmem i (plugins ms) = false) ->
    dmem "demo" (fs (mglob ms)) = false ->
    Routes.inbound_load_plugin handshaken (authorized "secret") loads_demo "f2" "demo" (Some "f1") ms =
      (Ret (Routes.RJson 203 [("id", None); ("error", Some "The given directory does not exist")]), ms))).
Proof.
  intros ms. split; [reflexivity|].
  exact (inbound_load_plugin_rejects handshaken (authorized "secret") loads_demo "f2" "demo" (Some "f1") ms eq_refl).
Defined.

End Extras4.
